(** * DownLoadMap: a shallow embedding of [main.py]

    The program plans the Google-satellite tiles that cover a bounding box on a
    range of zoom levels, downloads them with a thread pool and writes a TMS
    descriptor ([tilemapresource.xml]).

    Modelling choices, fixed here once:
    - The projection is given twice.  [Binary64.latlon2xy] is the function on
      binary64 floats ([PrimFloat]): every operation rounds, and [2.0 ** z],
      [int], the division and the functions of [math] raise as in CPython.
      What the C library returns for [tan], [cos] and [log] is not fixed by
      the source, so these three functions are a parameter there.
      [latlon2xy] reads the same lines in exact arithmetic over [R], with the
      functions of the standard library of reals, and keeps the
      [OverflowError] of [2.0 ** z]; the planner is stated over it.  The two
      differ by rounding: at the east edge the float just below 180 already
      falls into column 2^z ([x_val_binary64_east_edge]), which is why the
      statements about the column keep to longitudes up to 180 - 2^-44.
    - The descriptor prints floats digit by digit, so that part works on
      binary64 values and implements the [.Nf] format exactly.
    - Python [int] is [Z]; zoom levels are [nat] (they come from a [range]
      that starts at 0).
    - The file system, the network and their faults are explicit: a [world]
      holds the files, the directories and the log of requests, an [env]
      says which operations fault and what the server answers.  A scoped
      write ([with open(...) as f: f.write(...)]) is one step: [open_ok E p]
      says that it succeeds on [p]; when it is [false] the file cannot be
      opened and nothing changes.  A write that fails after the file was
      opened is outside the model.
    - [os.path.join] and [os.sep] are the POSIX ones.
    - [print] is not modelled. *)

From Stdlib Require Import ZArith Reals Lra Lia Floats List Ascii String.
From stdpp Require Import base option list gmap strings pretty.

Set Warnings "-inexact-float".

(** ** Exceptions and results *)

Inductive exn : Type :=
  | ValueError
  | ZeroDivisionError
  | OverflowError
  | OSError
  | RequestException.

Inductive result (A : Type) : Type :=
  | Ok (a : A)
  | Raise (e : exn).
Arguments Ok {A} a.
Arguments Raise {A} e.

#[global] Instance result_ret : MRet result := @Ok.
#[global] Instance result_bind : MBind result := fun A B f m =>
  match m with
  | Ok a => f a
  | Raise e => Raise e
  end.

(** [try: body except ValueError: handler] *)
Definition try_except_ValueError {A} (body : result A) (handler : result A) : result A :=
  match body with
  | Raise ValueError => handler
  | r => r
  end.

(** ** Python numeric primitives over the reals *)

Section Numeric.
Local Open Scope R_scope.

(** [max(a, b)]: the second argument wins only when it is strictly greater. *)
Definition py_max (a b : R) : R := if Rlt_dec a b then b else a.

(** [min(a, b)]: the second argument wins only when it is strictly smaller. *)
Definition py_min (a b : R) : R := if Rlt_dec b a then b else a.

(** [int(r)]: truncation toward zero. *)
Definition py_int (r : R) : Z :=
  if Rle_dec 0 r then Int_part r else (- Int_part (- r))%Z.

(** [a / b] *)
Definition py_div (a b : R) : result R :=
  if Req_dec_T b 0 then Raise ZeroDivisionError else Ok (a / b).

(** [math.radians(x)] *)
Definition math_radians (x : R) : R := x * (PI / 180).

(** [math.log(x)] *)
Definition math_log (x : R) : result R :=
  if Rlt_dec 0 x then Ok (ln x) else Raise ValueError.

(** ** The projection: [latlon2xy] (main.py, lines 34-47) *)

(** Line 40. *)
Definition clamp_lat (lat : R) : R := py_max (-85.0511) (py_min 85.0511 lat).

(** Line 36, [2.0 ** z]: the power leaves the range of binary64 at
    [z = 1024], where Python raises. *)
Definition py_pow2 (z : nat) : result R :=
  if (Z.of_nat z <? 1024)%Z then Ok (2 ^ z) else Raise OverflowError.

Definition latlon2xy (lat lon : R) (z : nat) : result (Z * Z) :=
  n ← py_pow2 z;
  let x_val := (lon + 180) / 360 * n in
  let lat := clamp_lat lat in
  y_val ← try_except_ValueError
    (let rad := math_radians lat in
     sec ← py_div 1 (cos rad);
     l ← math_log (tan rad + sec);
     Ok ((1 - l / PI) / 2 * n))
    (Ok 0);
  Ok (py_int x_val, py_int y_val).

(** The projection as the specification words it: clamp, then floors of the
    two closed formulas. *)
Definition sec (x : R) : R := 1 / cos x.

Definition spec_clamp (lat : R) : R := Rmax (-85.0511) (Rmin 85.0511 lat).

Definition spec_project (lat lon : R) (z : nat) : Z * Z :=
  let n := 2 ^ z in
  let rad := spec_clamp lat * PI / 180 in
  (Int_part ((lon + 180) / 360 * n),
   Int_part ((1 - ln (tan rad + sec rad) / PI) / 2 * n)).

End Numeric.

(** Line 37 on binary64 floats. *)
Definition x_val_binary64 (lon : float) (z : nat) : float :=
  ((lon + 180) / 360 * Z.ldexp 1 (Z.of_nat z))%float.

(** ** The projection on binary64 floats (main.py, lines 34-47)

    The same function with the arithmetic of the machine: every operation
    rounds to the nearest binary64 number.  What the C library returns for
    [tan], [cos] and [log] is not fixed by the source, so these three
    functions are a parameter; the checks CPython wraps around them are
    modelled. *)
Module Binary64.
Local Open Scope float_scope.

Record libm : Type := Libm {
  c_tan : float -> float;
  c_cos : float -> float;
  c_log : float -> float
}.

(** [math.pi] *)
Definition pi : float := 3.141592653589793.

(** A one-argument function of [math] that cannot overflow: a NaN result
    for an argument that is a number, and an infinite result for a finite
    argument, raise [ValueError]. *)
Definition math_1 (func : float -> float) (x : float) : result float :=
  let r := func x in
  if is_nan r && negb (is_nan x) then Raise ValueError
  else if is_infinity r && is_finite x then Raise ValueError
  else Ok r.

Definition math_tan (m : libm) : float -> result float := math_1 (c_tan m).
Definition math_cos (m : libm) : float -> result float := math_1 (c_cos m).

(** [math.log(x)]: zero, the negative numbers and minus infinity are outside
    the domain; NaN and plus infinity are returned as they are. *)
Definition math_log (m : libm) (x : float) : result float :=
  if x <=? 0 then Raise ValueError
  else if is_nan x || is_infinity x then Ok x
  else math_1 (c_log m) x.

(** [math.radians(x)] *)
Definition math_radians (x : float) : float := x * (pi / 180).

(** [a / b] *)
Definition py_div (a b : float) : result float :=
  if b =? 0 then Raise ZeroDivisionError else Ok (a / b).

(** [max(a, b)] and [min(a, b)]: the second argument wins only when the
    comparison with the first holds, so a NaN second argument loses. *)
Definition py_max (a b : float) : float := if a <? b then b else a.
Definition py_min (a b : float) : float := if b <? a then b else a.

(** [2.0 ** z] *)
Definition py_pow2 (z : nat) : result float :=
  if (Z.of_nat z <? 1024)%Z then Ok (Z.ldexp 1 (Z.of_nat z)) else Raise OverflowError.

(** [int(x)]: truncation toward zero; NaN and the infinities raise. *)
Definition py_int (x : float) : result Z :=
  match Prim2SF x with
  | S754_nan => Raise ValueError
  | S754_infinity _ => Raise OverflowError
  | S754_zero _ => Ok 0%Z
  | S754_finite s m e =>
      let k := if (0 <=? e)%Z then (Zpos m * 2 ^ e)%Z else (Zpos m / 2 ^ (- e))%Z in
      Ok (if s then (- k)%Z else k)
  end.

(** Line 40. *)
Definition clamp_lat (lat : float) : float := py_max (-85.0511) (py_min 85.0511 lat).

(** Lines 43-44: the body of the [try] statement. *)
Definition y_val_body (m : libm) (lat n : float) : result float :=
  let rad := math_radians lat in
  t ← math_tan m rad;
  c ← math_cos m rad;
  sec ← py_div 1 c;
  l ← math_log m (t + sec);
  Ok ((1 - l / pi) / 2 * n).

(** Lines 42-46. *)
Definition y_val_try (m : libm) (lat n : float) : result float :=
  try_except_ValueError (y_val_body m lat n) (Ok 0).

Definition latlon2xy (m : libm) (lat lon : float) (z : nat) : result (Z * Z) :=
  n ← py_pow2 z;
  let x_val := (lon + 180) / 360 * n in
  let lat := clamp_lat lat in
  y_val ← y_val_try m lat n;
  x ← py_int x_val;
  y ← py_int y_val;
  Ok (x, y).

End Binary64.


(** The exact value of a finite binary64 number. *)
Definition float_value (x : float) : R :=
  match Prim2SF x with
  | S754_finite s m e =>
      let v := if (0 <=? e)%Z then IZR (Zpos m * 2 ^ e)
               else (IZR (Zpos m) / IZR (2 ^ (- e)))%R in
      if s then (- v)%R else v
  | _ => 0%R
  end.


(** A math library given for angles below 1e-9, where the tangent of [x]
    rounds to [x] and the cosine rounds to 1, and for [log 1 = 0]. *)
Definition small_angle_libm : Binary64.libm :=
  Binary64.Libm (fun x => if abs x <? 1e-9 then x else nan)%float
                (fun x => if abs x <? 1e-9 then 1 else nan)%float
                (fun x => if PrimFloat.Leibniz.eqb x 1 then 0 else nan)%float.

(** A math library given only at the angle [math.radians(-90)], the float
    next to -pi/2, with the correctly rounded tangent and cosine of that
    float: there [tan + 1 / cos] is 0. *)
Definition south_pole_libm : Binary64.libm :=
  Binary64.Libm
    (fun x => if PrimFloat.Leibniz.eqb x (-1.5707963267948966)
              then -1.633123935319537e+16 else nan)%float
    (fun x => if PrimFloat.Leibniz.eqb x (-1.5707963267948966)
              then 6.123233995736766e-17 else nan)%float
    (fun _ => nan).

(** A math library whose tangent is out of order: it returns -2 everywhere.
    With it the argument of the logarithm is negative at every latitude. *)
Definition odd_libm : Binary64.libm :=
  Binary64.Libm (fun _ => -2)%float (fun _ => 1%float) (fun x => x).

(** The argument of the logarithm, as a function of the angle (a name for the
    proofs; the source writes the expression inline). *)
Definition merc_arg (r : R) : R := (tan r + 1 / cos r)%R.

(** The value the [try] statement of [latlon2xy] computes when nothing is
    raised (again a name for the proofs). *)
Definition y_val_of (lat n : R) : R :=
  ((1 - ln (merc_arg (math_radians lat)) / PI) / 2 * n)%R.

(** ** Configuration (main.py, lines 9-25) *)

Definition SAVE_PATH : string := "E:/Map/GoogleSat".

(** [range(0, 9)] *)
Definition ZOOM_LEVELS : list nat := seq 0 9.

(** [(min_lon, min_lat, max_lon, max_lat)] *)
Definition BOUNDS : R * R * R * R := (-180, -85.05, 180, 85.05)%R.

(** [str(n)] for an [int]. *)
Definition str (n : Z) : string := pretty n.

(** [URL_TEMPLATE.format(x=x, y=y, z=z)] *)
Definition URL_TEMPLATE (x y z : Z) : string :=
  "http://mt1.google.com/vt/lyrs=s&x=" +:+ str x +:+ "&y=" +:+ str y
  +:+ "&z=" +:+ str z.

(** ** The world: file system and network *)

Definition bytes : Type := list Byte.byte.

(** What [session.get] produces: a response, or an exception of [requests]. *)
Inductive response : Type :=
  | Response (status_code : Z) (content : bytes)
  | ConnectionFault.

(** The environment of a run: the server's answer to each URL, and which
    directory creations and file openings succeed. *)
Record env : Type := Env {
  session_get : string -> response;
  makedirs_ok : string -> bool;
  open_ok : string -> bool
}.

Record world : Type := World {
  files : gmap string bytes;
  dirs : gset string;
  requests : list string
}.

(** Computations that read and change the world and may raise.  The world
    keeps the changes made before an exception. *)
Definition M (A : Type) : Type := world -> result A * world.

#[global] Instance M_ret : MRet M := fun A a w => (Ok a, w).
#[global] Instance M_bind : MBind M := fun A B f m w =>
  match m w with
  | (Ok a, w') => f a w'
  | (Raise e, w') => (Raise e, w')
  end.

Definition lift {A} (r : result A) : M A := fun w => (r, w).

(** [try: body except Exception: handler] *)
Definition try_except_Exception {A} (body handler : M A) : M A := fun w =>
  match body w with
  | (Raise _, w') => handler w'
  | r => r
  end.

(** [for a in l: s = body(a, s)] *)
Fixpoint for_acc {A S} (l : list A) (s : S) (body : A -> S -> M S) : M S :=
  match l with
  | [] => mret s
  | a :: l' => s' ← body a s; for_acc l' s' body
  end.

(** [range(a, b)] on [int]. *)
Definition py_range (a b : Z) : list Z := seqZ a (b - a).

(** [os.sep]; the proofs only use that it is not a digit, a sign or a dot. *)
Definition os_sep : string := "/".

(** [s.startswith(os.sep)] and [s.endswith(os.sep)] *)
Definition starts_with_sep (s : string) : bool := String.prefix os_sep s.

Fixpoint ends_with_sep (s : string) : bool :=
  match s with
  | EmptyString => false
  | String c EmptyString => String.eqb (String c EmptyString) os_sep
  | String _ s' => ends_with_sep s'
  end.

(** [os.path.join(a, b)]: an absolute [b] replaces [a]; an empty [a] or one
    that ends in a separator takes [b] as it is; otherwise a separator is put
    between the two. *)
Definition path_join (a b : string) : string :=
  if starts_with_sep b then b
  else if String.eqb a "" || ends_with_sep a then a +:+ b
  else a +:+ os_sep +:+ b.

(** The value [os.path.exists(p)] returns in world [w]: [p] is a file or a
    directory. *)
Definition exists_b (p : string) (w : world) : bool :=
  bool_decide (p ∈ dom (files w)) || bool_decide (p ∈ dirs w).

Definition os_path_exists (p : string) : M bool := fun w => (Ok (exists_b p w), w).

(** The world after [os.makedirs(p)] succeeded, after [data] was written to
    [p], and after a request for [url] was sent. *)
Definition add_dir (p : string) (w : world) : world :=
  World (files w) ({[ p ]} ∪ dirs w) (requests w).

Definition store (p : string) (data : bytes) (w : world) : world :=
  World (<[ p := data ]> (files w)) (dirs w) (requests w).

Definition log_request (url : string) (w : world) : world :=
  World (files w) (dirs w) (requests w ++ [url]).

(** [os.makedirs(p)] *)
Definition os_makedirs (E : env) (p : string) : M unit := fun w =>
  if makedirs_ok E p then (Ok tt, add_dir p w) else (Raise OSError, w).

(** [if not os.path.exists(p): os.makedirs(p)] *)
Definition ensure_dir (E : env) (p : string) : M unit :=
  ex ← os_path_exists p;
  if ex : bool then mret tt else os_makedirs E p.

(** [with open(p, mode) as f: f.write(data)] *)
Definition write_file (E : env) (p : string) (data : bytes) : M unit := fun w =>
  if open_ok E p then (Ok tt, store p data w) else (Raise OSError, w).

(** [session.get(url, timeout=5)]: the request is logged, then the server's
    answer is returned or the transport fault raised. *)
Definition http_get (E : env) (url : string) : M (Z * bytes) := fun w =>
  let w' := log_request url w in
  match session_get E url with
  | Response status_code content => (Ok (status_code, content), w')
  | ConnectionFault => (Raise RequestException, w')
  end.

(** ** The task planner (main.py, lines 100-131) *)

(** [(x, y_google, z, file_path)] *)
Definition task : Type := Z * Z * nat * string.

Definition task_path (t : task) : string := t.2.

(** Lines 105-116: the clamped index ranges of one zoom level. *)
Definition tile_range (bounds : R * R * R * R) (z : nat) : result (Z * Z * Z * Z) :=
  let '(min_lon, min_lat, max_lon, max_lat) := bounds in
  let n_tiles := (2 ^ Z.of_nat z)%Z in
  '(x_min, _) ← latlon2xy max_lat min_lon z;
  '(x_max, _) ← latlon2xy min_lat max_lon z;
  '(_, y_min_g) ← latlon2xy max_lat min_lon z;
  '(_, y_max_g) ← latlon2xy min_lat max_lon z;
  let x_min := Z.max 0 x_min in
  let x_max := Z.min (n_tiles - 1) x_max in
  let y_start := Z.min y_min_g y_max_g in
  let y_end := Z.max y_min_g y_max_g in
  let y_start := Z.max 0 y_start in
  let y_end := Z.min (n_tiles - 1) y_end in
  Ok (x_min, x_max, y_start, y_end).

(** Lines 126-131: the body of the innermost loop. *)
Definition plan_tile (x_dir : string) (x : Z) (z : nat) (y_google : Z)
    (tasks : list task) : M (list task) :=
  let y_tms := ((2 ^ Z.of_nat z - 1) - y_google)%Z in
  let filename := str y_tms +:+ ".jpg" in
  let file_path := path_join x_dir filename in
  ex ← os_path_exists file_path;
  mret (if ex : bool then tasks else tasks ++ [(x, y_google, z, file_path)]).

(** Lines 122-131: the body of the loop over [x]. *)
Definition plan_column (E : env) (z_dir : string) (z : nat) (y_start y_end x : Z)
    (tasks : list task) : M (list task) :=
  let x_dir := path_join z_dir (str x) in
  _ ← ensure_dir E x_dir;
  for_acc (py_range y_start (y_end + 1)) tasks (plan_tile x_dir x z).

(** Lines 105-131: the body of the loop over the zoom levels. *)
Definition plan_level (E : env) (bounds : R * R * R * R) (z : nat)
    (tasks : list task) : M (list task) :=
  '(x_min, x_max, y_start, y_end) ← lift (tile_range bounds z);
  let z_dir := path_join SAVE_PATH (str (Z.of_nat z)) in
  _ ← ensure_dir E z_dir;
  for_acc (py_range x_min (x_max + 1)) tasks (plan_column E z_dir z y_start y_end).

Definition plan (E : env) (bounds : R * R * R * R) (zooms : list nat) : M (list task) :=
  for_acc zooms [] (plan_level E bounds).

(** ** The fetch executor (main.py, lines 49-63 and 136-150) *)

Definition task_url (t : task) : string :=
  let '(x, y_google, z, _) := t in URL_TEMPLATE x y_google (Z.of_nat z).

Definition download_task (E : env) (args : task) : M Z :=
  let '(x, y_google, z, file_path) := args in
  let url := URL_TEMPLATE x y_google (Z.of_nat z) in
  try_except_Exception
    ('(status_code, content) ← http_get E url;
     if (status_code =? 200)%Z then
       _ ← write_file E file_path content; mret 1%Z
     else if ((status_code =? 404) || (status_code =? 400))%Z then mret 0%Z
     else mret (-1)%Z)
    (mret (-1)%Z).

(** Lines 143-145, with [order] the order in which the pool runs and completes
    the submitted tasks (each task is taken as one atomic step).  The result is
    [(i + 1, downloaded_count)] after the last completion. *)
Definition execute (E : env) (order : list task) : M (Z * Z) :=
  for_acc order (0%Z, 0%Z) (fun t '(completed, downloaded_count) =>
    res ← download_task E t;
    mret ((completed + 1)%Z,
          if (res =? 1)%Z then (downloaded_count + 1)%Z else downloaded_count)).

(** ** The descriptor (main.py, lines 65-92), on binary64 floats *)

(** Rounding of [num / den] to the nearest integer, ties to even ([den > 0]). *)
Definition round_half_even (num den : Z) : Z :=
  let q := (num / den)%Z in
  let r := (num mod den)%Z in
  match (2 * r ?= den)%Z with
  | Lt => q
  | Gt => (q + 1)%Z
  | Eq => if Z.even q then q else (q + 1)%Z
  end.

Fixpoint zeros (n : nat) : string :=
  match n with
  | O => ""
  | S n' => "0" +:+ zeros n'
  end.

Definition zero_pad (width : nat) (s : string) : string :=
  zeros (width - String.length s) +:+ s.

(** The decimal writing of [q / 10^prec] with [prec] digits after the point. *)
Definition fixed_point (prec : nat) (q : Z) : string :=
  let scale := (10 ^ Z.of_nat prec)%Z in
  str (q / scale) +:+
  match prec with
  | O => ""
  | _ => "." +:+ zero_pad prec (str (q mod scale))
  end.

(** [f"{x:.{prec}f}"]: the exact value of the float, correctly rounded to
    [prec] decimals. *)
Definition format_f (prec : nat) (x : float) : string :=
  match Prim2SF x with
  | S754_nan => "nan"
  | S754_infinity s => if s then "-inf" else "inf"
  | S754_zero s => (if s then "-" else "") +:+ fixed_point prec 0
  | S754_finite s m e =>
      let scaled := (Zpos m * 10 ^ Z.of_nat prec)%Z in
      let q := if (0 <=? e)%Z then (scaled * 2 ^ e)%Z
               else round_half_even scaled (2 ^ (- e)) in
      (if s then "-" else "") +:+ fixed_point prec q
  end.

(** The double quote and the newline. *)
Definition dq : string := String "034"%char "".
Definition nl : string := String "010"%char "".

(** [ name="value"], one attribute of a tag. *)
Definition attr (name value : string) : string :=
  " " +:+ name +:+ "=" +:+ dq +:+ value +:+ dq.

Definition max_extent : float := 20037508.34%float.
Definition initial_res : float := 156543.03392804062%float.

(** Line 84: [initial_res / (2 ** z)].  The integer [2 ** z] converts to a
    float exactly up to [2 ** 1023]; above, the conversion raises. *)
Definition units_per_pixel (z : nat) : result float :=
  if (Z.of_nat z <? 1024)%Z
  then Ok (initial_res / Z.ldexp 1 (Z.of_nat z))%float
  else Raise OverflowError.

(** Lines 73-82. *)
Definition xml_header (ext : string) : string :=
  "<?xml" +:+ attr "version" "1.0" +:+ attr "encoding" "utf-8" +:+ " ?>" +:+ nl +:+
  "<TileMap" +:+ attr "tilemapservice" "http://www.osgeo.org/services/tilemapservice.xml"
    +:+ attr "version" "1.0.0" +:+ ">" +:+ nl +:+
  "  <Title>Google Maps Max Extent</Title>" +:+ nl +:+
  "  <Abstract>EPSG:3857 Web Mercator (Lat limit ~85.05)</Abstract>" +:+ nl +:+
  "  <SRS>EPSG:3857</SRS>" +:+ nl +:+
  "  <BoundingBox" +:+ attr "maxx" (format_f 6 max_extent)
    +:+ attr "maxy" (format_f 6 max_extent)
    +:+ attr "minx" ("-" +:+ format_f 6 max_extent)
    +:+ attr "miny" ("-" +:+ format_f 6 max_extent) +:+ " />" +:+ nl +:+
  "  <Origin" +:+ attr "x" ("-" +:+ format_f 6 max_extent)
    +:+ attr "y" ("-" +:+ format_f 6 max_extent) +:+ " />" +:+ nl +:+
  "  <TileFormat" +:+ attr "extension" ext +:+ attr "height" "256"
    +:+ attr "mime-type" "image/jpeg" +:+ attr "width" "256" +:+ " />" +:+ nl +:+
  "  <TileSets" +:+ attr "profile" "global-mercator" +:+ ">" +:+ nl.

(** Line 85: one [<TileSet>] line. *)
Definition tile_set_line (z : nat) (units : float) : string :=
  "    <TileSet" +:+ attr "order" (str (Z.of_nat z))
    +:+ attr "units-per-pixel" (format_f 18 units) +:+ " />" +:+ nl.

(** Lines 83-85: the loop over the zoom levels. *)
Fixpoint tile_set_lines (zs : list nat) (xml_content : string) : result string :=
  match zs with
  | [] => Ok xml_content
  | z :: zs' =>
      units ← units_per_pixel z;
      tile_set_lines zs' (xml_content +:+ tile_set_line z units)
  end.

(** Lines 87-88. *)
Definition xml_footer : string := "  </TileSets>" +:+ nl +:+ "</TileMap>".

(** Lines 73-88: the text of the descriptor. *)
Definition xml_document (min_zoom max_zoom : nat) (ext : string) : result string :=
  xml_content ← tile_set_lines (seq min_zoom (max_zoom + 1 - min_zoom)) (xml_header ext);
  Ok (xml_content +:+ xml_footer).

Definition generate_mercator_xml (E : env) (path : string) (min_zoom max_zoom : nat)
    (ext : string) : M unit :=
  xml_content ← lift (xml_document min_zoom max_zoom ext);
  write_file E (path_join path "tilemapresource.xml")
             (String.list_byte_of_string xml_content).

(** ** The run (main.py, lines 94-154) *)

(** [min(l)] and [max(l)] of a sequence. *)
Definition py_min_list (l : list nat) : result nat :=
  match l with
  | [] => Raise ValueError
  | a :: l' => Ok (foldl Nat.min a l')
  end.

Definition py_max_list (l : list nat) : result nat :=
  match l with
  | [] => Raise ValueError
  | a :: l' => Ok (foldl Nat.max a l')
  end.

(** [sched] is the order in which the pool runs the planned tasks. *)
Definition main (E : env) (sched : list task -> list task) : M unit :=
  _ ← ensure_dir E SAVE_PATH;
  tasks ← plan E BOUNDS ZOOM_LEVELS;
  let total_tasks := length tasks in
  _ ← (if (0 <? total_tasks)%nat
       then _ ← execute E (sched tasks); mret tt
       else mret tt);
  min_zoom ← lift (py_min_list ZOOM_LEVELS);
  max_zoom ← lift (py_max_list ZOOM_LEVELS);
  generate_mercator_xml E SAVE_PATH min_zoom max_zoom "jpg".


(** ** Pure descriptions of what the planner enumerates (for the proofs) *)

(** Whether character [c] occurs in [s]. *)
Fixpoint str_mem (c : ascii) (s : string) : bool :=
  match s with
  | EmptyString => false
  | String a s' => bool_decide (a = c) || str_mem c s'
  end.

(** [c] is none of the characters ["0"] to ["9"]. *)
Definition not_a_digit (c : ascii) : Prop :=
  forall k, (k < 10)%N -> pretty_N_char k <> c.

(** The destination of tile [(x, y_google)] of level [z]. *)
Definition tile_path (z : nat) (x y_google : Z) : string :=
  path_join (path_join (path_join SAVE_PATH (str (Z.of_nat z))) (str x))
            (str (2 ^ Z.of_nat z - 1 - y_google) +:+ ".jpg").

(** The tiles of one column, of one level and of a list of levels, in the
    order of the loops, before the check against the disk. *)
Definition column_tiles (z : nat) (y_start y_end x : Z) : list task :=
  (fun y_google => (x, y_google, z, tile_path z x y_google)) <$> py_range y_start (y_end + 1).

Definition level_tiles (z : nat) (r : Z * Z * Z * Z) : list task :=
  let '(x_min, x_max, y_start, y_end) := r in
  py_range x_min (x_max + 1) ≫= column_tiles z y_start y_end.

Definition candidate_tiles (bounds : R * R * R * R) (z : nat) : list task :=
  match tile_range bounds z with
  | Ok r => level_tiles z r
  | Raise _ => []
  end.

(** The candidates whose destination does not exist in [w]. *)
Definition pending (w : world) (l : list task) : list task :=
  filter (fun t => exists_b (task_path t) w = false) l.

(** [w'] has the files and requests of [w] and differs at most in
    directories whose name has no dot. *)
Definition same_files (w w' : world) : Prop :=
  files w' = files w /\ requests w' = requests w /\
  forall p, str_mem "." p = true -> (p ∈ dirs w' <-> p ∈ dirs w).

(** The destination of [t] has a dot in it. *)
Definition dotted (t : task) : Prop := str_mem "." (task_path t) = true.

Definition task_zoom (t : task) : nat := t.1.2.

(** A fault-free environment whose server knows no tile, and the empty
    world: the concrete run the witnesses use. *)
Definition quiet_env : env :=
  Env (fun _ => Response 404 []) (fun _ => true) (fun _ => true).

Definition empty_world : world := World ∅ ∅ [].

(** What [download_task] returns for [t], and the world it leaves: both are
    decided by the server's answer and by whether the destination opens. *)
Definition task_result (E : env) (t : task) : Z :=
  match session_get E (task_url t) with
  | Response status_code _ =>
      if (status_code =? 200)%Z then (if open_ok E (task_path t) then 1 else -1)%Z
      else if ((status_code =? 404) || (status_code =? 400))%Z then 0%Z
      else (-1)%Z
  | ConnectionFault => (-1)%Z
  end.

Definition task_effect (E : env) (w : world) (t : task) : world :=
  let w1 := log_request (task_url t) w in
  match session_get E (task_url t) with
  | Response status_code content =>
      if (status_code =? 200)%Z && open_ok E (task_path t)
      then store (task_path t) content w1
      else w1
  | ConnectionFault => w1
  end.

(** An environment in which the directory of zoom level 0 cannot be
    created, one in which the directory of column 1 of level 1 cannot, and one
    whose server answers 200 with one fixed body. *)
Definition broken_dir_env : env :=
  Env (fun _ => Response 200 [])
      (fun p => negb (String.eqb p "E:/Map/GoogleSat/0"))
      (fun _ => true).

Definition broken_column_env : env :=
  Env (fun _ => Response 200 [])
      (fun p => negb (String.eqb p "E:/Map/GoogleSat/1/1"))
      (fun _ => true).

Definition serving_env (body : bytes) : env :=
  Env (fun _ => Response 200 body) (fun _ => true) (fun _ => true).

(** A fault-free environment whose server has the tile of level 0 only. *)
Definition level_0_env : env :=
  Env (fun url => if String.eqb url "http://mt1.google.com/vt/lyrs=s&x=0&y=0&z=0"
                  then Response 200 [Byte.x78] else Response 404 [])
      (fun _ => true) (fun _ => true).

(** [w'] comes from [w] by creating directories without a dot in their name,
    each of them one whose creation succeeds in [E]. *)
Definition planned (E : env) (w w' : world) : Prop :=
  same_files w w' /\
  forall p, p ∈ dirs w' -> p ∈ dirs w \/ makedirs_ok E p = true.

(** [m], started in [w], either returns [a], or stops on an [OSError] that a
    faulting [os.makedirs] raised, or stops on the [OverflowError] of a zoom
    level of 1024 or more (when [overflow] holds); either way it leaves the
    files alone. *)
Definition outcome (E : env) (overflow : Prop) {A} (m : M A) (w : world) (a : A) : Prop :=
  exists w', planned E w w' /\
    (m w = (Ok a, w') \/
     (m w = (Raise OSError, w') /\ exists p, makedirs_ok E p = false) \/
     (m w = (Raise OverflowError, w') /\ overflow)).

(** The directories a planning pass over [zooms] has to find or create below
    [SAVE_PATH]: one per level and one per column of its clamped range. *)
Definition needed_dir (bounds : R * R * R * R) (zooms : list nat) (d : string) : Prop :=
  exists z x_min x_max y_start y_end,
    z ∈ zooms /\ tile_range bounds z = Ok (x_min, x_max, y_start, y_end) /\
    (d = path_join SAVE_PATH (str (Z.of_nat z)) \/
     exists x, (x_min <= x <= x_max)%Z /\
       d = path_join (path_join SAVE_PATH (str (Z.of_nat z))) (str x)).

(** What the specification requires of an emitted task: both native indices
    and the stored row are inside the grid of the level, and the destination is
    the stored-row path. *)
Definition task_in_grid (t : task) : Prop :=
  let '(x, y_google, z, file_path) := t in
  (0 <= x <= 2 ^ Z.of_nat z - 1)%Z /\
  (0 <= y_google <= 2 ^ Z.of_nat z - 1)%Z /\
  (0 <= 2 ^ Z.of_nat z - 1 - y_google <= 2 ^ Z.of_nat z - 1)%Z /\
  file_path = tile_path z x y_google.

(** The [<TileSet>] lines of a list of levels, in one piece (what the loop of
    lines 83-85 appends when no level overflows). *)
Definition tile_set_block (zs : list nat) : string :=
  foldr (fun z rest =>
           tile_set_line z (initial_res / Z.ldexp 1 (Z.of_nat z))%float +:+ rest)
        "" zs.

(** Whether the resolution of level [z + 1] is the float half of the
    resolution of level [z]. *)
Definition halves_at (z : nat) : bool :=
  match units_per_pixel z, units_per_pixel (S z) with
  | Ok u, Ok u' => PrimFloat.Leibniz.eqb u' (u / 2)%float
  | _, _ => false
  end.

(** ** Numeric facts *)

Section NumericFacts.
Local Open Scope R_scope.

Ltac INR_numerals_in H :=
  repeat match type of H with
  | context [INR ?n] =>
      let z := eval vm_compute in (Z.of_nat n) in
      replace (INR n) with (IZR z) in H
        by (rewrite (INR_IZR_INZ n); apply f_equal; vm_compute; reflexivity)
  end.

Lemma PI_lower : 3.1415926 <= PI.
Proof.
  pose proof (proj1 (PI_2_3_7_ineq 3)) as H.
  unfold PI_2_3_7_tg, tg_alt, Ratan_seq in H.
  simpl in H.
  lra.
Qed.

Lemma exp_partial_sum (x : R) (N : nat) :
  0 <= x -> sum_f_R0 (fun i => / INR (fact i) * x ^ i) N <= exp x.
Proof.
  intros Hx. apply sum_incr.
  - unfold exp. destruct (exist_exp x) as [l Hl]. simpl. exact Hl.
  - intros n. apply Rmult_le_pos.
    + left. apply Rinv_0_lt_compat. apply INR_fact_lt_0.
    + apply pow_le; exact Hx.
Qed.

Lemma exp_PI_lower : 23.14057 < exp PI.
Proof.
  pose proof PI_lower as Hpi.
  assert (H8 : exp PI = exp (PI / 8) ^ 8).
  { replace PI with (PI/8 + PI/8 + PI/8 + PI/8 + PI/8 + PI/8 + PI/8 + PI/8) at 1 by field.
    rewrite !exp_plus. ring. }
  rewrite H8.
  assert (Hy : 0.392699075 <= PI / 8) by lra.
  assert (HT : 1.480972 <= exp (PI / 8)).
  { apply Rle_trans with (exp 0.392699075).
    - assert (H0 : 0 <= 0.392699075) by lra.
      pose proof (exp_partial_sum _ 7 H0) as H.
      cbn [sum_f_R0] in H. INR_numerals_in H. lra.
    - destruct Hy as [Hy|Hy].
      + left. apply exp_increasing. exact Hy.
      + right. rewrite Hy. reflexivity. }
  apply Rlt_le_trans with (1.480972 ^ 8).
  - lra.
  - apply pow_incr. lra.
Qed.

Lemma cot_half_bound : (1 + cos 0.08637459) / sin 0.08637459 < 23.14057.
Proof.
  pose proof PI_lower as Hpi.
  assert (Hc1 : - PI / 2 <= 0.08637459) by lra.
  assert (Hc2 : 0.08637459 <= PI / 2) by lra.
  assert (Hs1 : 0 <= 0.08637459) by lra.
  assert (Hs2 : 0.08637459 <= PI) by lra.
  pose proof (COS _ Hc1 Hc2) as [_ Hc].
  pose proof (SIN _ Hs1 Hs2) as [Hs _].
  unfold cos_ub, cos_approx, cos_term in Hc. cbn [sum_f_R0] in Hc. INR_numerals_in Hc.
  unfold sin_lb, sin_approx, sin_term in Hs. cbn [sum_f_R0] in Hs. INR_numerals_in Hs.
  cbn [Nat.mul Nat.add] in Hc, Hs.
  assert (Hs0 : 0.0862 < sin 0.08637459) by lra.
  apply Rmult_lt_reg_r with (sin 0.08637459); [lra|].
  unfold Rdiv. rewrite Rmult_assoc, Rinv_l by lra.
  lra.
Qed.

Lemma merc_arg_eq r : cos r <> 0 -> merc_arg r = (1 + sin r) / cos r.
Proof. intros Hc. unfold merc_arg, tan. field. exact Hc. Qed.

Lemma sin_gt_m1 r : - (PI / 2) < r -> r <= PI / 2 -> -1 < sin r.
Proof.
  intros H1 H2. pose proof PI_RGT_0 as Hpi.
  replace (-1) with (sin (- (PI / 2))) by (rewrite sin_neg, sin_PI2; ring).
  apply sin_increasing_1; lra.
Qed.

Lemma merc_arg_pos r : - (PI / 2) < r < PI / 2 -> 0 < merc_arg r.
Proof.
  intros [H1 H2].
  assert (Hc : 0 < cos r) by (apply cos_gt_0; lra).
  rewrite merc_arg_eq by lra.
  pose proof (sin_gt_m1 r H1 ltac:(lra)).
  apply Rdiv_lt_0_compat; lra.
Qed.

Lemma merc_arg_opp r :
  - (PI / 2) < r < PI / 2 -> merc_arg (- r) = / merc_arg r.
Proof.
  intros [H1 H2].
  assert (Hc : 0 < cos r) by (apply cos_gt_0; lra).
  assert (Hs : -1 < sin r) by (apply sin_gt_m1; lra).
  rewrite (merc_arg_eq r) by lra.
  rewrite merc_arg_eq by (rewrite cos_neg; lra).
  rewrite cos_neg, sin_neg.
  pose proof (sin2_cos2 r) as Hsc. unfold Rsqr in Hsc.
  field_simplify_eq; [nra | lra].
Qed.

Lemma merc_arg_mono r r' :
  0 <= r -> r <= r' -> r' < PI / 2 -> merc_arg r <= merc_arg r'.
Proof.
  intros H0 Hle Hlt.
  assert (Hc : 0 < cos r) by (apply cos_gt_0; lra).
  assert (Hc' : 0 < cos r') by (apply cos_gt_0; lra).
  assert (Hcc : cos r' <= cos r) by (apply cos_decr_1; lra).
  assert (Hss : sin r <= sin r') by (apply sin_incr_1; lra).
  assert (Hs0 : 0 <= sin r) by (apply sin_ge_0; lra).
  rewrite !merc_arg_eq by lra.
  apply Rmult_le_reg_r with (cos r * cos r'); [nra|].
  field_simplify; [nra | lra | lra].
Qed.

Lemma merc_arg_ge_1 r : 0 <= r < PI / 2 -> 1 <= merc_arg r.
Proof.
  intros [H0 H1].
  replace 1 with (merc_arg 0).
  - apply merc_arg_mono; lra.
  - unfold merc_arg. rewrite tan_0, cos_0. field.
Qed.

Lemma merc_arg_gt_1 r : 0 < r < PI / 2 -> 1 < merc_arg r.
Proof.
  intros [H0 H1].
  assert (Hc : 0 < cos r) by (apply cos_gt_0; lra).
  assert (Hs : 0 < sin r) by (apply sin_gt_0; lra).
  pose proof (COS_bound r) as [_ Hc1].
  rewrite merc_arg_eq by lra.
  apply Rmult_lt_reg_r with (cos r); [lra|].
  unfold Rdiv. rewrite Rmult_assoc, Rinv_l by lra. lra.
Qed.

Lemma radians_max_lt : math_radians 85.0511 < PI / 2.
Proof. unfold math_radians. pose proof PI_RGT_0. lra. Qed.

Lemma merc_arg_max : merc_arg (math_radians 85.0511) < exp PI.
Proof.
  pose proof PI_lower as Hpi. pose proof PI_4 as Hpi4.
  set (d := PI * 4.9489 / 180).
  assert (Hr : math_radians 85.0511 = PI / 2 - d)
    by (unfold math_radians, d; lra).
  assert (Hd : 0.08637459 <= d) by (unfold d; lra).
  assert (Hd2 : d < 0.2) by (unfold d; lra).
  assert (Hcos : cos (math_radians 85.0511) = sin d)
    by (rewrite Hr; apply cos_shift).
  assert (Hsin : sin (math_radians 85.0511) = cos d)
    by (rewrite Hr; apply sin_shift).
  assert (Hs1 : sin 0.08637459 <= sin d) by (apply sin_incr_1; lra).
  assert (Hc1 : cos d <= cos 0.08637459) by (apply cos_decr_1; lra).
  assert (Hs0 : 0 < sin 0.08637459) by (apply sin_gt_0; lra).
  pose proof (COS_bound 0.08637459) as [Hcb _].
  pose proof cot_half_bound as Hb.
  apply Rlt_trans with 23.14057; [|exact exp_PI_lower].
  rewrite merc_arg_eq by (rewrite Hcos; lra).
  rewrite Hcos, Hsin.
  apply Rle_lt_trans with ((1 + cos 0.08637459) / sin 0.08637459); [|exact Hb].
  apply Rmult_le_reg_r with (sin d * sin 0.08637459); [nra|].
  field_simplify; [nra | lra | lra].
Qed.

(** For a latitude inside the clamp range the logarithm is defined and lies
    strictly between [-PI] and [PI], with the sign of the latitude. *)
Lemma ln_merc_arg_pos lat :
  0 < lat <= 85.0511 ->
  0 < ln (merc_arg (math_radians lat)) < PI.
Proof.
  intros [H0 H1]. pose proof PI_RGT_0 as Hpi. pose proof radians_max_lt as Hm.
  assert (Hr0 : 0 < math_radians lat) by (unfold math_radians; nra).
  assert (Hr1 : math_radians lat <= math_radians 85.0511)
    by (unfold math_radians; nra).
  pose proof (merc_arg_gt_1 (math_radians lat) ltac:(lra)) as Hg.
  split.
  - rewrite <- ln_1. apply ln_increasing; lra.
  - rewrite <- (ln_exp PI). apply ln_increasing; [lra|].
    apply Rle_lt_trans with (merc_arg (math_radians 85.0511)).
    + apply merc_arg_mono; lra.
    + exact merc_arg_max.
Qed.

Lemma ln_merc_arg_0 : ln (merc_arg (math_radians 0)) = 0.
Proof.
  unfold math_radians, merc_arg. rewrite Rmult_0_l, tan_0, cos_0.
  replace (0 + 1 / 1) with 1 by field. exact ln_1.
Qed.

Lemma ln_merc_arg_neg lat :
  -85.0511 <= lat < 0 ->
  - PI < ln (merc_arg (math_radians lat)) < 0.
Proof.
  intros [H0 H1]. pose proof PI_RGT_0 as Hpi. pose proof radians_max_lt as Hm.
  pose proof (ln_merc_arg_pos (- lat) ltac:(lra)) as [Hp1 Hp2].
  assert (Hr : math_radians lat = - math_radians (- lat))
    by (unfold math_radians; ring).
  assert (Hrr : - (PI / 2) < math_radians (- lat) < PI / 2).
  { assert (math_radians (- lat) <= math_radians 85.0511)
      by (unfold math_radians; nra).
    assert (0 < math_radians (- lat)) by (unfold math_radians; nra).
    lra. }
  rewrite Hr, merc_arg_opp by exact Hrr.
  rewrite ln_Rinv by (apply merc_arg_pos; exact Hrr).
  lra.
Qed.

Lemma ln_merc_arg_bound lat :
  -85.0511 <= lat <= 85.0511 ->
  - PI < ln (merc_arg (math_radians lat)) < PI.
Proof.
  intros [H0 H1]. pose proof PI_RGT_0 as Hpi.
  destruct (Rtotal_order lat 0) as [Hlt | [Heq | Hgt]].
  - pose proof (ln_merc_arg_neg lat ltac:(lra)). lra.
  - subst lat. rewrite ln_merc_arg_0. lra.
  - pose proof (ln_merc_arg_pos lat ltac:(lra)). lra.
Qed.

Lemma radians_clamped_range lat :
  -85.0511 <= lat <= 85.0511 ->
  - (PI / 2) < math_radians lat < PI / 2.
Proof.
  intros [H0 H1]. pose proof PI_RGT_0 as Hpi. unfold math_radians. nra.
Qed.

End NumericFacts.

(** ** The projection *)

Section ProjectionFacts.
Local Open Scope R_scope.

Lemma py_int_nonneg r : 0 <= r -> py_int r = Int_part r.
Proof. intros H. unfold py_int. destruct (Rle_dec 0 r); [reflexivity | contradiction]. Qed.

Lemma Int_part_unique r k : IZR k <= r < IZR k + 1 -> Int_part r = k.
Proof. intros [H1 H2]. symmetry. apply Int_part_spec. lra. Qed.

Lemma py_int_cell r k : 0 <= r -> IZR k <= r < IZR k + 1 -> py_int r = k.
Proof. intros H0 H. rewrite py_int_nonneg by exact H0. apply Int_part_unique, H. Qed.

Lemma py_int_neg_cell r k : r < 0 -> IZR k <= - r < IZR k + 1 -> py_int r = (- k)%Z.
Proof.
  intros H0 H. unfold py_int. destruct (Rle_dec 0 r) as [Hle|_]; [lra|].
  rewrite (Int_part_unique _ _ H). reflexivity.
Qed.




Lemma pow2_pos (z : nat) : 0 < 2 ^ z.
Proof. apply pow_lt. lra. Qed.

Lemma clamp_lat_spec lat : clamp_lat lat = spec_clamp lat.
Proof.
  unfold clamp_lat, spec_clamp, py_max, py_min, Rmax, Rmin.
  repeat (destruct (Rlt_dec _ _)); repeat (destruct (Rle_dec _ _)); lra.
Qed.

Lemma clamp_lat_range lat : -85.0511 <= clamp_lat lat <= 85.0511.
Proof.
  unfold clamp_lat, py_max, py_min.
  repeat (destruct (Rlt_dec _ _)); lra.
Qed.

Lemma clamp_lat_id lat : -85.0511 <= lat <= 85.0511 -> clamp_lat lat = lat.
Proof.
  intros H. unfold clamp_lat, py_max, py_min.
  repeat (destruct (Rlt_dec _ _)); lra.
Qed.

Lemma y_val_of_range lat n :
  -85.0511 <= lat <= 85.0511 -> 0 < n -> 0 < y_val_of lat n < n.
Proof.
  intros H Hn. pose proof (ln_merc_arg_bound lat H) as [H1 H2].
  pose proof PI_RGT_0 as Hpi. unfold y_val_of.
  set (l := ln _) in *.
  assert (Hq : -1 < l / PI < 1).
  { split.
    - apply Rmult_lt_reg_r with PI; [lra|]. unfold Rdiv.
      rewrite Rmult_assoc, Rinv_l by lra. lra.
    - apply Rmult_lt_reg_r with PI; [lra|]. unfold Rdiv.
      rewrite Rmult_assoc, Rinv_l by lra. lra. }
  split; nra.
Qed.

Lemma y_val_of_north lat n :
  0 < lat <= 85.0511 -> 0 < n -> 0 < y_val_of lat n < n / 2.
Proof.
  intros H Hn. pose proof (ln_merc_arg_pos lat H) as [H1 H2].
  pose proof PI_RGT_0 as Hpi. unfold y_val_of. set (l := ln _) in *.
  assert (Hq : 0 < l / PI < 1).
  { split.
    - apply Rdiv_lt_0_compat; lra.
    - apply Rmult_lt_reg_r with PI; [lra|]. unfold Rdiv.
      rewrite Rmult_assoc, Rinv_l by lra. lra. }
  split; nra.
Qed.

Lemma y_val_of_south lat n :
  -85.0511 <= lat < 0 -> 0 < n -> n / 2 < y_val_of lat n < n.
Proof.
  intros H Hn. pose proof (ln_merc_arg_neg lat H) as [H1 H2].
  pose proof PI_RGT_0 as Hpi. unfold y_val_of. set (l := ln _) in *.
  assert (Hq : -1 < l / PI < 0).
  { split.
    - apply Rmult_lt_reg_r with PI; [lra|]. unfold Rdiv.
      rewrite Rmult_assoc, Rinv_l by lra. lra.
    - apply Rmult_lt_reg_r with PI; [lra|]. unfold Rdiv.
      rewrite Rmult_assoc, Rinv_l by lra. lra. }
  split; nra.
Qed.

Lemma py_pow2_small z : (z < 1024)%nat -> py_pow2 z = Ok (2 ^ z).
Proof.
  intros Hz. unfold py_pow2.
  destruct (Z.ltb_spec (Z.of_nat z) 1024) as [_|Hge]; [reflexivity | lia].
Qed.

Lemma py_pow2_overflow z : (1024 <= z)%nat -> py_pow2 z = Raise OverflowError.
Proof.
  intros Hz. unfold py_pow2.
  destruct (Z.ltb_spec (Z.of_nat z) 1024) as [Hlt|_]; [lia | reflexivity].
Qed.

(** Below level 1024 [latlon2xy] never raises, and this is what it returns;
    from level 1024 on it raises. *)
Lemma latlon2xy_eq lat lon z :
  (z < 1024)%nat ->
  latlon2xy lat lon z =
  Ok (py_int ((lon + 180) / 360 * 2 ^ z), py_int (y_val_of (clamp_lat lat) (2 ^ z))).
Proof.
  intros Hz. unfold latlon2xy. rewrite (py_pow2_small z Hz). cbn [mbind result_bind].
  pose proof (clamp_lat_range lat) as H. set (lat' := clamp_lat lat) in *.
  pose proof (radians_clamped_range lat' H) as Hr.
  assert (Hc : 0 < cos (math_radians lat')) by (apply cos_gt_0; lra).
  pose proof (merc_arg_pos _ Hr) as Ha. unfold merc_arg in Ha.
  unfold py_div, math_log.
  destruct (Req_dec_T _ _) as [He|_]; [lra|]. cbn [mbind result_bind].
  destruct (Rlt_dec _ _) as [_|Hn]; [|contradiction]. reflexivity.
Qed.

Lemma latlon2xy_overflow lat lon z :
  (1024 <= z)%nat -> latlon2xy lat lon z = Raise OverflowError.
Proof. intros Hz. unfold latlon2xy. rewrite (py_pow2_overflow z Hz). reflexivity. Qed.


Lemma x_val_range lon z :
  -180 <= lon <= 180 -> 0 <= (lon + 180) / 360 * 2 ^ z <= 2 ^ z.
Proof. intros H. pose proof (pow2_pos z). split; nra. Qed.

Lemma latlon2xy_returns lat lon z :
  (z < 1024)%nat -> exists x y, latlon2xy lat lon z = Ok (x, y).
Proof. intros Hz. rewrite latlon2xy_eq by exact Hz. eauto. Qed.




(** The same column on binary64 floats: 2^z at longitude 180, and already at
    179.99999999999997 = 180 - 2^-45, the largest float below 180, where
    [lon + 180.0] rounds to 360; one float further west, at
    179.99999999999994 = 180 - 2^-44, the sum is exact and the column is
    inside the grid. *)
Lemma x_val_binary64_east_edge :
  x_val_binary64 180 0 = 1%float /\
  x_val_binary64 180 5 = 32%float /\
  x_val_binary64 179.99999999999997 0 = 1%float /\
  (179.99999999999994 + 180 <? 360)%float = true /\
  (x_val_binary64 179.99999999999994 0 <? 1)%float = true.
Proof. repeat split; reflexivity. Qed.





(** In exact arithmetic the two values are the floors of the closed formulas
    of the specification, at the clamped latitude. *)
Lemma latlon2xy_exact_floors lat lon z :
  -180 <= lon <= 180 -> (z < 1024)%nat ->
  latlon2xy lat lon z = Ok (spec_project lat lon z).
Proof.
  intros Hlon Hz. rewrite latlon2xy_eq by exact Hz. unfold spec_project.
  pose proof (x_val_range lon z Hlon) as [Hx0 _].
  pose proof (y_val_of_range _ (2 ^ z) (clamp_lat_range lat) (pow2_pos z)) as [Hy0 _].
  rewrite !py_int_nonneg by lra.
  rewrite <- clamp_lat_spec. unfold y_val_of, merc_arg, math_radians, sec.
  replace (clamp_lat lat * PI / 180) with (clamp_lat lat * (PI / 180)) by lra.
  reflexivity.
Qed.

End ProjectionFacts.

(** ** The projection on binary64 floats *)

Section Binary64Facts.








Lemma py_pow2_small64 z :
  (z < 1024)%nat -> Binary64.py_pow2 z = Ok (Z.ldexp 1 (Z.of_nat z)).
Proof.
  intros Hz. unfold Binary64.py_pow2.
  destruct (Z.ltb_spec (Z.of_nat z) 1024) as [_|Hge]; [reflexivity | lia].
Qed.

(** What [latlon2xy] returns once the [try] statement has produced
    [y_val]. *)
Lemma latlon2xy_after_try m lat lon z y_val :
  (z < 1024)%nat ->
  Binary64.y_val_try m (Binary64.clamp_lat lat) (Z.ldexp 1 (Z.of_nat z)) = Ok y_val ->
  Binary64.latlon2xy m lat lon z =
    (x ← Binary64.py_int (x_val_binary64 lon z);
     y ← Binary64.py_int y_val;
     Ok (x, y)).
Proof.
  intros Hz Hy. unfold Binary64.latlon2xy. rewrite (py_pow2_small64 z Hz).
  cbn [mbind result_bind]. rewrite Hy. reflexivity.
Qed.


Lemma y_val_body_guard m lat n t c :
  Binary64.math_tan m (Binary64.math_radians lat) = Ok t ->
  Binary64.math_cos m (Binary64.math_radians lat) = Ok c ->
  (c =? 0)%float = false ->
  (t + 1 / c <=? 0)%float = true ->
  Binary64.y_val_body m lat n = Raise ValueError.
Proof.
  intros Ht Hc Hc0 Ha. unfold Binary64.y_val_body. rewrite Ht, Hc.
  cbn [mbind result_bind]. unfold Binary64.py_div. rewrite Hc0.
  cbn [mbind result_bind]. unfold Binary64.math_log. rewrite Ha. reflexivity.
Qed.

Lemma latlon2xy_guard m lat lon z :
  (z < 1024)%nat ->
  Binary64.y_val_body m (Binary64.clamp_lat lat) (Z.ldexp 1 (Z.of_nat z))
    = Raise ValueError ->
  Binary64.latlon2xy m lat lon z =
    (x ← Binary64.py_int (x_val_binary64 lon z); Ok (x, 0%Z)).
Proof.
  intros Hz Hb. rewrite (latlon2xy_after_try m lat lon z 0%float Hz).
  - destruct (Binary64.py_int (x_val_binary64 lon z)); reflexivity.
  - unfold Binary64.y_val_try. rewrite Hb. reflexivity.
Qed.



(** The column does not depend on the math library. *)
Lemma latlon2xy_column64 m lat lon z x y :
  Binary64.latlon2xy m lat lon z = Ok (x, y) ->
  Binary64.py_int (x_val_binary64 lon z) = Ok x.
Proof.
  unfold Binary64.latlon2xy, Binary64.py_pow2, x_val_binary64.
  destruct (Z.of_nat z <? 1024)%Z; [|discriminate]. cbn [mbind result_bind].
  destruct (Binary64.y_val_try _ _ _) as [y_val|]; [|discriminate].
  cbn [mbind result_bind].
  destruct (Binary64.py_int (_ * _)%float) as [x'|]; [|discriminate].
  cbn [mbind result_bind].
  destruct (Binary64.py_int y_val) as [y'|]; [|discriminate].
  intros [= -> _]. reflexivity.
Qed.

Lemma column_east_edge64 :
  Binary64.py_int (x_val_binary64 179.99999999999997 0) = Ok 1%Z.
Proof. reflexivity. Qed.


(** The row differs as well: at latitude 1e-20 and zoom 1 the argument of
    the logarithm rounds to 1, the code returns row 1, and the formula of the
    specification gives row 0. *)
Lemma latlon2xy_binary64_row_edge :
  Binary64.latlon2xy small_angle_libm 1e-20 0 1 = Ok (1, 1)%Z /\
  (0 < float_value 1e-20 <= 85.0511)%R /\
  spec_project (float_value 1e-20) 0 1 = (1, 0)%Z.
Proof.
  split; [reflexivity|].
  assert (Hv : (0 < float_value 1e-20 <= 1)%R).
  { unfold float_value.
    change (Prim2SF 1e-20) with (S754_finite false 6646139978924579 (-119)).
    cbv iota beta. change (0 <=? -119)%Z with false. cbv iota.
    change (- -119)%Z with 119%Z.
    assert (Hp : (0 < IZR (2 ^ 119))%R) by (apply IZR_lt; reflexivity).
    assert (Hm : (0 < IZR 6646139978924579)%R) by (apply IZR_lt; reflexivity).
    assert (Hle : (IZR 6646139978924579 <= IZR (2 ^ 119))%R)
      by (apply IZR_le; discriminate).
    split.
    - apply Rdiv_lt_0_compat; assumption.
    - apply Rmult_le_reg_r with (IZR (2 ^ 119)); [exact Hp|].
      unfold Rdiv. rewrite Rmult_assoc, Rinv_l by lra. lra. }
  split; [lra|].
  set (lat := float_value 1e-20) in *.
  assert (Hlon : (-180 <= 0 <= 180)%R) by lra.
  pose proof (latlon2xy_exact_floors lat 0 1 Hlon ltac:(lia)) as Hspec.
  rewrite latlon2xy_eq in Hspec by lia.
  apply (f_equal (fun r => match r with Ok v => v | Raise _ => (0, 0)%Z end)) in Hspec.
  cbv beta iota in Hspec. rewrite <- Hspec.
  rewrite clamp_lat_id by lra.
  assert (Hn : (0 < 2 ^ 1)%R) by (simpl; lra).
  assert (Hlat : (0 < lat <= 85.0511)%R) by lra.
  pose proof (y_val_of_north lat (2 ^ 1) Hlat Hn) as [H1 H2].
  simpl in H1, H2. f_equal; apply py_int_cell; simpl; lra.
Qed.



(** C8: whatever the math library returns, the [try] statement of
    [latlon2xy] never lets a [ValueError] out; when the argument computed for
    [math.log] is zero or negative (or the body raises [ValueError] in any
    other way), the row returned is 0 and the column is the usual one.  The
    same holds of the [try] statement on its own, at any latitude. *)
Theorem latlon2xy_log_guard (m : Binary64.libm) :
  (forall lat n, Binary64.y_val_try m lat n <> Raise ValueError) /\
  (forall lat lon z t c,
     (z < 1024)%nat ->
     let rad := Binary64.math_radians (Binary64.clamp_lat lat) in
     Binary64.math_tan m rad = Ok t ->
     Binary64.math_cos m rad = Ok c ->
     (c =? 0)%float = false ->
     (t + 1 / c <=? 0)%float = true ->
     Binary64.latlon2xy m lat lon z =
       (x ← Binary64.py_int ((lon + 180) / 360 * Z.ldexp 1 (Z.of_nat z))%float;
        Ok (x, 0%Z))) /\
  (forall lat lon z,
     (z < 1024)%nat ->
     Binary64.y_val_body m (Binary64.clamp_lat lat) (Z.ldexp 1 (Z.of_nat z))
       = Raise ValueError ->
     Binary64.latlon2xy m lat lon z =
       (x ← Binary64.py_int ((lon + 180) / 360 * Z.ldexp 1 (Z.of_nat z))%float;
        Ok (x, 0%Z))) /\
  (forall lat n t c,
     Binary64.math_tan m (Binary64.math_radians lat) = Ok t ->
     Binary64.math_cos m (Binary64.math_radians lat) = Ok c ->
     (c =? 0)%float = false ->
     (t + 1 / c <=? 0)%float = true ->
     (Binary64.y_val_try m lat n ≫= Binary64.py_int) = Ok 0%Z).
Proof.
  split; [|split; [|split]].
  - intros lat n. unfold Binary64.y_val_try, try_except_ValueError.
    destruct (Binary64.y_val_body m lat n) as [v|[]]; discriminate.
  - intros lat lon z t c Hz rad Ht Hc Hc0 Ha.
    apply (latlon2xy_guard m lat lon z Hz).
    apply (y_val_body_guard m _ _ t c Ht Hc Hc0 Ha).
  - intros lat lon z. apply latlon2xy_guard.
  - intros lat n t c Ht Hc Hc0 Ha. unfold Binary64.y_val_try.
    rewrite (y_val_body_guard m lat n t c Ht Hc Hc0 Ha). reflexivity.
Qed.

Lemma latlon2xy_log_guard_witness :
  Binary64.latlon2xy odd_libm 40 116 5 = Ok (26, 0)%Z /\
  (Binary64.y_val_try south_pole_libm (-90) 1 ≫= Binary64.py_int) = Ok 0%Z.
Proof.
  split.
  - etransitivity.
    + apply (proj1 (proj2 (latlon2xy_log_guard odd_libm))
               40%float 116%float 5%nat (-2)%float 1%float);
        [lia | reflexivity | reflexivity | reflexivity | reflexivity].
    + reflexivity.
  - apply (proj2 (proj2 (proj2 (latlon2xy_log_guard south_pole_libm)))
             (-90)%float 1%float (-1.633123935319537e+16)%float
             6.123233995736766e-17%float);
      reflexivity.
Defined.

End Binary64Facts.

(** ** Strings and paths *)

Section PathFacts.

Lemma str_mem_app c a b : str_mem c (a +:+ b) = str_mem c a || str_mem c b.
Proof.
  induction a as [|x a IH]; simpl; [reflexivity|].
  rewrite IH. apply orb_assoc.
Qed.

Lemma pretty_N_char_not c n : not_a_digit c -> pretty_N_char n <> c.
Proof.
  intros H. destruct (decide (n < 10)%N) as [Hlt|Hge]; [apply H, Hlt|].
  replace (pretty_N_char n) with (pretty_N_char 9); [apply H; lia|].
  unfold pretty_N_char.
  destruct n as [|p]; [lia|].
  do 4 (destruct p as [p|p|]; try lia; try reflexivity).
Qed.

Lemma str_mem_pretty_N_go c x s :
  not_a_digit c -> str_mem c (pretty_N_go x s) = str_mem c s.
Proof.
  intros Hc. revert s. induction (N.lt_wf_0 x) as [x _ IH]. intros s.
  destruct (decide (x = 0)%N) as [->|Hx].
  - rewrite pretty_N_go_0. reflexivity.
  - rewrite pretty_N_go_step by lia.
    rewrite IH by (apply N.div_lt; lia).
    simpl. rewrite bool_decide_eq_false_2; [reflexivity|].
    apply pretty_N_char_not, Hc.
Qed.

Lemma str_mem_pretty_N c (n : N) :
  not_a_digit c -> str_mem c (pretty n) = false.
Proof.
  intros Hc. unfold pretty, pretty_N.
  destruct (decide (n = 0)%N).
  - simpl. rewrite bool_decide_eq_false_2; [reflexivity|]. apply (Hc 0%N). lia.
  - rewrite str_mem_pretty_N_go by exact Hc. reflexivity.
Qed.

Lemma str_mem_str c (n : Z) :
  not_a_digit c -> c <> "-"%char -> str_mem c (str n) = false.
Proof.
  intros Hc Hm. unfold str, pretty, pretty_Z. destruct n as [|p|p].
  - simpl. rewrite bool_decide_eq_false_2; [reflexivity|]. apply (Hc 0%N). lia.
  - apply (str_mem_pretty_N c (Npos p) Hc).
  - rewrite str_mem_app. simpl.
    rewrite bool_decide_eq_false_2 by congruence.
    apply (str_mem_pretty_N c (Npos p) Hc).
Qed.

Lemma slash_not_a_digit : not_a_digit "/"%char.
Proof.
  intros k Hk. unfold pretty_N_char.
  destruct k as [|p]; [discriminate|].
  do 4 (destruct p as [p|p|]; try discriminate).
Qed.

Lemma dot_not_a_digit : not_a_digit "."%char.
Proof.
  intros k Hk. unfold pretty_N_char.
  destruct k as [|p]; [discriminate|].
  do 4 (destruct p as [p|p|]; try discriminate).
Qed.

(** Splitting at the first occurrence of a character is unique. *)
Lemma app_split_unique c a a' r r' :
  str_mem c a = false -> str_mem c a' = false ->
  a +:+ String c r = a' +:+ String c r' -> a = a' /\ r = r'.
Proof.
  revert a'. induction a as [|x a IH]; intros [|x' a'] Ha Ha' Heq; simpl in *.
  - injection Heq as ->. split; reflexivity.
  - injection Heq as <- _. rewrite bool_decide_eq_true_2 in Ha' by reflexivity.
    discriminate.
  - injection Heq as -> _. rewrite bool_decide_eq_true_2 in Ha by reflexivity.
    discriminate.
  - injection Heq as -> Heq.
    apply orb_false_elim in Ha as [_ Ha]. apply orb_false_elim in Ha' as [_ Ha'].
    destruct (IH a' Ha Ha' Heq) as [-> ->]. split; reflexivity.
Qed.

Lemma str_app_assoc (a b c : string) : (a +:+ b) +:+ c = a +:+ (b +:+ c).
Proof.
  induction a as [|x a IH]; [reflexivity|].
  exact (f_equal (String x) IH).
Qed.

Lemma starts_with_sep_mem s : str_mem "/" s = false -> starts_with_sep s = false.
Proof.
  destruct s as [|c s]; [reflexivity|].
  unfold starts_with_sep, os_sep. cbn [str_mem String.prefix].
  intros [Hc _]%orb_false_elim. apply bool_decide_eq_false in Hc.
  destruct (Ascii.ascii_dec "/" c) as [<-|Hne]; [contradiction | reflexivity].
Qed.

Lemma ends_with_sep_mem s : str_mem "/" s = false -> ends_with_sep s = false.
Proof.
  induction s as [|c s IH]; [reflexivity|]. cbn [str_mem].
  intros [Hc Hs]%orb_false_elim. apply bool_decide_eq_false in Hc.
  destruct s as [|c' s]; [|exact (IH Hs)].
  cbn. apply Ascii.eqb_neq in Hc. rewrite Hc. reflexivity.
Qed.

Lemma ends_with_sep_app a s :
  s <> "" -> str_mem "/" s = false -> ends_with_sep (a +:+ s) = false.
Proof.
  intros Hne Hs. induction a as [|c a IH]; [apply ends_with_sep_mem, Hs|].
  change (String c a +:+ s) with (String c (a +:+ s)).
  destruct (a +:+ s) as [|c' r] eqn:Hr; [|exact IH].
  destruct a; [cbn in Hr; contradiction | discriminate Hr].
Qed.

Lemma path_join_plain a b :
  a <> "" -> ends_with_sep a = false -> starts_with_sep b = false ->
  path_join a b = a +:+ String "/" b.
Proof.
  intros Ha He Hb. unfold path_join. rewrite Hb, He.
  destruct a as [|c a]; [contradiction | reflexivity].
Qed.

Lemma pretty_N_go_nonempty x s : s <> "" -> pretty_N_go x s <> "".
Proof.
  revert s. induction (N.lt_wf_0 x) as [x _ IH]. intros s Hs.
  destruct (decide (x = 0)%N) as [->|Hx].
  - rewrite pretty_N_go_0. exact Hs.
  - rewrite pretty_N_go_step by lia. apply IH; [apply N.div_lt; lia | discriminate].
Qed.

Lemma pretty_N_nonempty (n : N) : pretty n <> "".
Proof.
  unfold pretty, pretty_N. destruct (decide (n = 0)%N); [discriminate|].
  rewrite pretty_N_go_step by lia. apply pretty_N_go_nonempty. discriminate.
Qed.

Lemma str_nonempty (n : Z) : str n <> "".
Proof.
  unfold str, pretty, pretty_Z. destruct n as [|p|p].
  - discriminate.
  - apply (pretty_N_nonempty (Npos p)).
  - discriminate.
Qed.

Lemma str_no_sep (n : Z) : str_mem "/" (str n) = false.
Proof. apply str_mem_str; [exact slash_not_a_digit | discriminate]. Qed.

Lemma ends_with_sep_str a (n : Z) : ends_with_sep (a +:+ String "/" (str n)) = false.
Proof.
  change (String "/" (str n)) with ("/" +:+ str n). rewrite <- str_app_assoc.
  apply ends_with_sep_app; [apply str_nonempty | apply str_no_sep].
Qed.

(** The joins of the planner put one separator between their parts. *)
Lemma z_dir_eq (n : Z) : path_join SAVE_PATH (str n) = SAVE_PATH +:+ String "/" (str n).
Proof.
  apply path_join_plain; [discriminate | reflexivity |].
  apply starts_with_sep_mem, str_no_sep.
Qed.

Lemma x_dir_eq (n m : Z) :
  path_join (path_join SAVE_PATH (str n)) (str m) =
  (SAVE_PATH +:+ String "/" (str n)) +:+ String "/" (str m).
Proof.
  rewrite z_dir_eq. apply path_join_plain.
  - discriminate.
  - apply ends_with_sep_str.
  - apply starts_with_sep_mem, str_no_sep.
Qed.

Lemma tile_path_flat z x y :
  tile_path z x y =
  SAVE_PATH +:+ String "/" (str (Z.of_nat z) +:+ String "/" (str x +:+
    String "/" (str (2 ^ Z.of_nat z - 1 - y) +:+ String "." "jpg"))).
Proof.
  unfold tile_path. rewrite x_dir_eq, path_join_plain.
  - rewrite !str_app_assoc. reflexivity.
  - discriminate.
  - apply ends_with_sep_str.
  - apply starts_with_sep_mem. rewrite str_mem_app, str_no_sep. reflexivity.
Qed.

Lemma tile_path_inj z x y z' x' y' :
  tile_path z x y = tile_path z' x' y' -> z = z' /\ x = x' /\ y = y'.
Proof.
  rewrite !tile_path_flat. intros H.
  apply String.app_inj in H. injection H as H.
  apply app_split_unique in H as [Hz H];
    [| apply str_mem_str; [exact slash_not_a_digit | discriminate] ..].
  apply app_split_unique in H as [Hx H];
    [| apply str_mem_str; [exact slash_not_a_digit | discriminate] ..].
  apply app_split_unique in H as [Hy _];
    [| apply str_mem_str; [exact dot_not_a_digit | discriminate] ..].
  apply (inj pretty) in Hz. apply (inj pretty) in Hx. apply (inj pretty) in Hy.
  assert (z = z') by lia. subst z'. repeat split; lia.
Qed.

Lemma str_mem_dot_SAVE_PATH : str_mem "." SAVE_PATH = false.
Proof. reflexivity. Qed.

Lemma z_dir_dotless (n : Z) : str_mem "." (path_join SAVE_PATH (str n)) = false.
Proof.
  rewrite z_dir_eq, str_mem_app, str_mem_dot_SAVE_PATH. cbn [str_mem orb].
  rewrite bool_decide_eq_false_2 by discriminate.
  apply str_mem_str; [exact dot_not_a_digit | discriminate].
Qed.

Lemma x_dir_dotless (n m : Z) :
  str_mem "." (path_join (path_join SAVE_PATH (str n)) (str m)) = false.
Proof.
  rewrite x_dir_eq, <- z_dir_eq, str_mem_app, z_dir_dotless. cbn [str_mem orb].
  rewrite bool_decide_eq_false_2 by discriminate.
  apply str_mem_str; [exact dot_not_a_digit | discriminate].
Qed.

Lemma str_mem_app_r c a b : str_mem c b = true -> str_mem c (a +:+ b) = true.
Proof. intros H. rewrite str_mem_app, H. apply orb_true_r. Qed.

Lemma str_mem_cons c x b : str_mem c b = true -> str_mem c (String x b) = true.
Proof. intros H. cbn [str_mem]. rewrite H. apply orb_true_r. Qed.

Lemma tile_path_dotted z x y : str_mem "." (tile_path z x y) = true.
Proof.
  rewrite tile_path_flat.
  do 3 (apply str_mem_app_r, str_mem_cons).
  apply str_mem_app_r. reflexivity.
Qed.

End PathFacts.

(** ** The planner *)

Section PlannerFacts.
Context (E : env).

Lemma M_bind_eq {A B} (m : M A) (f : A -> M B) w :
  (m ≫= f) w =
  match m w with
  | (Ok a, w') => f a w'
  | (Raise e, w') => (Raise e, w')
  end.
Proof. reflexivity. Qed.

Lemma same_files_refl w : same_files w w.
Proof. repeat split; auto. Qed.

Lemma same_files_trans w1 w2 w3 :
  same_files w1 w2 -> same_files w2 w3 -> same_files w1 w3.
Proof.
  intros (Hf & Hr & Hd) (Hf' & Hr' & Hd').
  split; [congruence|]. split; [congruence|].
  intros p Hp. rewrite (Hd' p Hp). apply Hd, Hp.
Qed.

Lemma same_files_add_dir p w : str_mem "." p = false -> same_files w (add_dir p w).
Proof.
  intros Hp. split; [reflexivity|]. split; [reflexivity|].
  intros q Hq. simpl. rewrite elem_of_union, elem_of_singleton.
  split; [intros [-> | Hd]; [congruence | exact Hd] | auto].
Qed.

Lemma exists_b_same_files p w w' :
  same_files w w' -> str_mem "." p = true -> exists_b p w' = exists_b p w.
Proof.
  intros (Hf & _ & Hd) Hp. unfold exists_b. rewrite Hf. f_equal.
  apply bool_decide_ext, Hd, Hp.
Qed.

Lemma pending_same_files w w' l :
  same_files w w' -> Forall dotted l -> pending w' l = pending w l.
Proof.
  intros Hs Hl. unfold pending. induction Hl as [|t l Ht _ IH]; [reflexivity|].
  rewrite !filter_cons, IH, (exists_b_same_files _ _ _ Hs Ht). reflexivity.
Qed.

Lemma pending_app w l1 l2 : pending w (l1 ++ l2) = pending w l1 ++ pending w l2.
Proof. apply filter_app. Qed.

Lemma column_tiles_dotted z ys ye x : Forall dotted (column_tiles z ys ye x).
Proof.
  apply Forall_fmap, Forall_forall. intros y _. apply tile_path_dotted.
Qed.

Lemma level_tiles_dotted z r : Forall dotted (level_tiles z r).
Proof.
  destruct r as [[[x_min x_max] ys] ye]. unfold level_tiles.
  apply Forall_bind, Forall_forall. intros x _. apply column_tiles_dotted.
Qed.

Lemma candidate_tiles_dotted bounds z : Forall dotted (candidate_tiles bounds z).
Proof.
  unfold candidate_tiles. destruct (tile_range bounds z); [|constructor].
  apply level_tiles_dotted.
Qed.

Lemma planned_refl w : planned E w w.
Proof. split; [apply same_files_refl | auto]. Qed.

Lemma planned_trans w1 w2 w3 : planned E w1 w2 -> planned E w2 w3 -> planned E w1 w3.
Proof.
  intros [Hs Hd] [Hs' Hd']. split; [eapply same_files_trans; eassumption|].
  intros p Hp. destruct (Hd' p Hp) as [H | H]; [apply Hd, H | right; exact H].
Qed.

Lemma planned_add_dir p w :
  str_mem "." p = false -> makedirs_ok E p = true -> planned E w (add_dir p w).
Proof.
  intros Hp Hok. split; [apply same_files_add_dir, Hp|].
  intros q. simpl. rewrite elem_of_union, elem_of_singleton.
  intros [-> | Hq]; [right; exact Hok | left; exact Hq].
Qed.

(** A directory that is missing and cannot be created stays missing. *)
Lemma planned_still_missing d w w' :
  planned E w w' -> makedirs_ok E d = false ->
  exists_b d w = false -> exists_b d w' = false.
Proof.
  intros [(Hf & _ & _) Hd] Hmk. unfold exists_b. rewrite Hf.
  intros [H1 H2]%orb_false_elim. rewrite H1. cbn [orb].
  apply bool_decide_eq_false. apply bool_decide_eq_false in H2.
  intros Hin. destruct (Hd d Hin) as [H | H]; [contradiction | congruence].
Qed.

Lemma outcome_ret {A} ov (a : A) w : outcome E ov (mret a) w a.
Proof. exists w. split; [apply planned_refl | left; reflexivity]. Qed.

Lemma outcome_mono {A} (ov ov' : Prop) (m : M A) w a :
  (ov -> ov') -> outcome E ov m w a -> outcome E ov' m w a.
Proof.
  intros Himp (w' & Hs & [H | [H | [H Hov]]]); exists w'; (split; [exact Hs|]); auto.
Qed.

Lemma outcome_bind {A B} ov (m : M A) (f : A -> M B) w a b :
  outcome E ov m w a ->
  (forall w', planned E w w' -> outcome E ov (f a) w' b) ->
  outcome E ov (m ≫= f) w b.
Proof.
  intros (w1 & Hs1 & [Hm | [[Hm Hp] | [Hm Hov]]]) Hf.
  - destruct (Hf w1 Hs1) as (w2 & Hs2 & Hr).
    exists w2. split; [eapply planned_trans; eassumption|].
    rewrite M_bind_eq, Hm. exact Hr.
  - exists w1. split; [exact Hs1|]. right. left. split; [|exact Hp].
    rewrite M_bind_eq, Hm. reflexivity.
  - exists w1. split; [exact Hs1|]. right. right. split; [|exact Hov].
    rewrite M_bind_eq, Hm. reflexivity.
Qed.

Lemma outcome_ensure_dir ov p w :
  str_mem "." p = false -> outcome E ov (ensure_dir E p) w tt.
Proof.
  intros Hp. unfold outcome, ensure_dir.
  rewrite M_bind_eq. unfold os_path_exists.
  destruct (exists_b p w).
  - exists w. split; [apply planned_refl | left; reflexivity].
  - unfold os_makedirs. destruct (makedirs_ok E p) eqn:Hok.
    + exists (add_dir p w). split; [apply planned_add_dir; assumption | left; reflexivity].
    + exists w. split; [apply planned_refl|]. right. left. split; [reflexivity | eauto].
Qed.

(** A directory that is missing and cannot be created makes
    [ensure_dir] raise, and leaves the world as it is. *)
Lemma ensure_dir_fault d w :
  exists_b d w = false -> makedirs_ok E d = false ->
  ensure_dir E d w = (Raise OSError, w).
Proof.
  intros Hex Hmk. unfold ensure_dir. rewrite M_bind_eq. unfold os_path_exists.
  rewrite Hex. unfold os_makedirs. rewrite Hmk. reflexivity.
Qed.

(** The innermost loop does not change the world. *)
Lemma for_plan_tile x_dir x z ys : forall tasks w,
  for_acc ys tasks (plan_tile x_dir x z) w =
  (Ok (tasks ++ pending w
         ((fun y => (x, y, z,
             path_join x_dir (str (2 ^ Z.of_nat z - 1 - y) +:+ ".jpg"))) <$> ys)),
   w).
Proof.
  induction ys as [|y ys IH]; intros tasks w.
  - cbn. rewrite app_nil_r. reflexivity.
  - cbn [for_acc]. rewrite M_bind_eq. unfold plan_tile at 1.
    rewrite M_bind_eq. unfold os_path_exists.
    cbn [fmap list_fmap]. unfold pending. rewrite filter_cons.
    cbn [task_path snd].
    destruct (exists_b _ w) eqn:Hex; cbn.
    + rewrite IH. unfold pending. rewrite decide_False by discriminate. reflexivity.
    + rewrite IH. unfold pending. rewrite decide_True by reflexivity.
      rewrite <- app_assoc. reflexivity.
Qed.

Lemma outcome_plan_column ov z ys ye x tasks w :
  outcome E ov (plan_column E (path_join SAVE_PATH (str (Z.of_nat z))) z ys ye x tasks) w
            (tasks ++ pending w (column_tiles z ys ye x)).
Proof.
  unfold plan_column.
  eapply outcome_bind; [apply outcome_ensure_dir, x_dir_dotless|].
  intros w' [Hs _]. exists w'. split; [apply planned_refl|]. left.
  rewrite for_plan_tile.
  rewrite <- (pending_same_files _ _ _ Hs (column_tiles_dotted z ys ye x)).
  reflexivity.
Qed.

Lemma outcome_columns ov z ys ye xs : forall tasks w,
  outcome E ov (for_acc xs tasks
                  (plan_column E (path_join SAVE_PATH (str (Z.of_nat z))) z ys ye)) w
            (tasks ++ pending w (xs ≫= column_tiles z ys ye)).
Proof.
  induction xs as [|x xs IH]; intros tasks w.
  - cbn. rewrite app_nil_r. apply outcome_ret.
  - cbn [for_acc]. eapply outcome_bind; [apply outcome_plan_column|].
    intros w' [Hs _]. rewrite bind_cons, pending_app, app_assoc.
    rewrite <- (pending_same_files w w' (xs ≫= column_tiles z ys ye) Hs).
    + apply IH.
    + apply Forall_bind, Forall_forall. intros ? _. apply column_tiles_dotted.
Qed.

Lemma tile_range_total bounds z : (z < 1024)%nat -> exists r, tile_range bounds z = Ok r.
Proof.
  intros Hz. destruct bounds as [[[min_lon min_lat] max_lon] max_lat].
  unfold tile_range. rewrite !latlon2xy_eq by exact Hz. cbn. eauto.
Qed.

Lemma tile_range_overflow bounds z :
  (1024 <= z)%nat -> tile_range bounds z = Raise OverflowError.
Proof.
  intros Hz. destruct bounds as [[[min_lon min_lat] max_lon] max_lat].
  unfold tile_range. rewrite !latlon2xy_overflow by exact Hz. reflexivity.
Qed.

Lemma tile_range_Ok bounds z r : tile_range bounds z = Ok r -> (z < 1024)%nat.
Proof.
  intros H. destruct (le_lt_dec 1024 z) as [Hge|Hlt]; [|exact Hlt].
  rewrite tile_range_overflow in H by exact Hge. discriminate.
Qed.

Lemma outcome_plan_level bounds z tasks w :
  outcome E (1024 <= z)%nat (plan_level E bounds z tasks) w
            (tasks ++ pending w (candidate_tiles bounds z)).
Proof.
  destruct (le_lt_dec 1024 z) as [Hge|Hlt].
  { exists w. split; [apply planned_refl|]. right. right. split; [|exact Hge].
    unfold plan_level. rewrite M_bind_eq. unfold lift.
    rewrite (tile_range_overflow bounds z Hge). reflexivity. }
  unfold plan_level, candidate_tiles.
  destruct (tile_range_total bounds z Hlt) as [[[[x_min x_max] ys] ye] Hr].
  rewrite Hr. unfold outcome. rewrite M_bind_eq. unfold lift.
  change (outcome E (1024 <= z)%nat
    (ensure_dir E (path_join SAVE_PATH (str (Z.of_nat z))) ≫= fun _ =>
     for_acc (py_range x_min (x_max + 1)) tasks
       (plan_column E (path_join SAVE_PATH (str (Z.of_nat z))) z ys ye)) w
    (tasks ++ pending w (level_tiles z (x_min, x_max, ys, ye)))).
  eapply outcome_bind; [apply outcome_ensure_dir, z_dir_dotless|].
  intros w' [Hs _]. unfold level_tiles.
  rewrite <- (pending_same_files w w' _ Hs).
  - apply outcome_columns.
  - apply Forall_bind, Forall_forall. intros ? _. apply column_tiles_dotted.
Qed.

Lemma outcome_levels bounds zs : forall tasks w,
  outcome E (Exists (fun z => 1024 <= z)%nat zs)
            (for_acc zs tasks (plan_level E bounds)) w
            (tasks ++ pending w (zs ≫= candidate_tiles bounds)).
Proof.
  induction zs as [|z zs IH]; intros tasks w.
  - cbn. rewrite app_nil_r. apply outcome_ret.
  - cbn [for_acc]. eapply outcome_bind.
    + eapply outcome_mono; [|apply outcome_plan_level].
      intros Hz. apply Exists_cons. left. exact Hz.
    + intros w' [Hs _]. rewrite bind_cons, pending_app, app_assoc.
      rewrite <- (pending_same_files w w' (zs ≫= candidate_tiles bounds) Hs).
      * eapply outcome_mono; [|apply IH].
        intros Hz. apply Exists_cons. right. exact Hz.
      * apply Forall_bind, Forall_forall. intros ? _. apply candidate_tiles_dotted.
Qed.

Lemma outcome_plan bounds zs w :
  outcome E (Exists (fun z => 1024 <= z)%nat zs)
            (plan E bounds zs) w (pending w (zs ≫= candidate_tiles bounds)).
Proof. apply (outcome_levels bounds zs [] w). Qed.

(** A planning pass that returns, returns the pending candidates. *)
Lemma plan_returns bounds zs w tasks w' :
  plan E bounds zs w = (Ok tasks, w') ->
  tasks = pending w (zs ≫= candidate_tiles bounds) /\ same_files w w'.
Proof.
  intros H.
  destruct (outcome_plan bounds zs w) as (w1 & [Hs _] & [Hr | [[Hr _] | [Hr _]]]).
  - rewrite Hr in H. injection H as <- <-. split; [reflexivity | exact Hs].
  - rewrite Hr in H. discriminate.
  - rewrite Hr in H. discriminate.
Qed.

Lemma small_levels (lo len : nat) :
  (lo + len <= 1024)%nat -> Forall (fun z => z < 1024)%nat (seq lo len).
Proof. intros H. apply Forall_forall. intros z Hz%elem_of_seq. lia. Qed.

Lemma no_large_level zs :
  Forall (fun z => z < 1024)%nat zs -> ~ Exists (fun z => 1024 <= z)%nat zs.
Proof.
  intros Hall (z & Hz & Hge)%Exists_exists.
  rewrite Forall_forall in Hall. specialize (Hall z Hz). lia.
Qed.

(** Without directory faults a planning pass over levels below 1024
    returns. *)
Lemma plan_total bounds zs w :
  (forall p, makedirs_ok E p = true) ->
  Forall (fun z => z < 1024)%nat zs ->
  exists w', plan E bounds zs w = (Ok (pending w (zs ≫= candidate_tiles bounds)), w').
Proof.
  intros Hok Hzs.
  destruct (outcome_plan bounds zs w) as (w1 & Hs & [Hr | [[_ [p Hp]] | [_ Hov]]]).
  - eauto.
  - rewrite Hok in Hp. discriminate.
  - destruct (no_large_level zs Hzs Hov).
Qed.

(** A fault creating the directory of a level ends the pass there. *)
Lemma plan_level_dir_fault bounds z tasks w :
  (z < 1024)%nat ->
  exists_b (path_join SAVE_PATH (str (Z.of_nat z))) w = false ->
  makedirs_ok E (path_join SAVE_PATH (str (Z.of_nat z))) = false ->
  plan_level E bounds z tasks w = (Raise OSError, w).
Proof.
  intros Hz Hex Hmk. unfold plan_level.
  destruct (tile_range_total bounds z Hz) as [[[[x_min x_max] ys] ye] Hr].
  rewrite Hr, M_bind_eq. unfold lift. rewrite M_bind_eq.
  rewrite (ensure_dir_fault _ _ Hex Hmk). reflexivity.
Qed.

(** A fault creating the directory of a column ends the pass there. *)
Lemma plan_column_dir_fault z_dir z ys ye x tasks w :
  exists_b (path_join z_dir (str x)) w = false ->
  makedirs_ok E (path_join z_dir (str x)) = false ->
  plan_column E z_dir z ys ye x tasks w = (Raise OSError, w).
Proof.
  intros Hex Hmk. unfold plan_column. rewrite M_bind_eq.
  rewrite (ensure_dir_fault _ _ Hex Hmk). reflexivity.
Qed.

End PlannerFacts.

(** ** What the planner emits *)

Section PlannerTheorems.
Local Open Scope Z_scope.

Lemma tile_range_clamped bounds z x_min x_max y_start y_end :
  tile_range bounds z = Ok (x_min, x_max, y_start, y_end) ->
  0 <= x_min /\ x_max <= 2 ^ Z.of_nat z - 1 /\
  0 <= y_start /\ y_end <= 2 ^ Z.of_nat z - 1.
Proof.
  intros H. pose proof (tile_range_Ok _ _ _ H) as Hz. revert H.
  destruct bounds as [[[min_lon min_lat] max_lon] max_lat].
  unfold tile_range. rewrite !latlon2xy_eq by exact Hz. cbn.
  intros H. injection H as <- <- <- <-. lia.
Qed.

Lemma elem_of_column_tiles t z ys ye x :
  t ∈ column_tiles z ys ye x ->
  exists y, t = (x, y, z, tile_path z x y) /\ ys <= y <= ye.
Proof.
  unfold column_tiles, py_range.
  intros (y & -> & Hy%elem_of_seqZ)%list_elem_of_fmap.
  exists y. split; [reflexivity | lia].
Qed.

Lemma elem_of_level_tiles t z x_min x_max ys ye :
  t ∈ level_tiles z (x_min, x_max, ys, ye) ->
  exists x y, t = (x, y, z, tile_path z x y) /\
    x_min <= x <= x_max /\ ys <= y <= ye.
Proof.
  unfold level_tiles, py_range.
  intros (x & Ht & Hx%elem_of_seqZ)%list_elem_of_bind.
  apply elem_of_column_tiles in Ht as (y & -> & Hy).
  exists x, y. split; [reflexivity | lia].
Qed.

Lemma elem_of_candidate_tiles t bounds z :
  t ∈ candidate_tiles bounds z ->
  exists x_min x_max ys ye x y,
    tile_range bounds z = Ok (x_min, x_max, ys, ye) /\
    t = (x, y, z, tile_path z x y) /\
    x_min <= x <= x_max /\ ys <= y <= ye.
Proof.
  unfold candidate_tiles.
  destruct (tile_range bounds z) as [[[[x_min x_max] ys] ye]|e] eqn:Hr.
  - intros (x & y & Ht & Hx & Hy)%elem_of_level_tiles.
    exists x_min, x_max, ys, ye, x, y. auto.
  - intros H. apply elem_of_nil in H. contradiction.
Qed.

Lemma candidate_in_grid t bounds z :
  t ∈ candidate_tiles bounds z -> task_in_grid t /\ task_zoom t = z.
Proof.
  intros (x_min & x_max & ys & ye & x & y & Hr & -> & Hx & Hy)%elem_of_candidate_tiles.
  apply tile_range_clamped in Hr. unfold task_in_grid, task_zoom. simpl.
  repeat split; lia.
Qed.

Lemma NoDup_column_tiles z ys ye x : NoDup (column_tiles z ys ye x).
Proof.
  unfold column_tiles. apply NoDup_fmap_2_strong; [|apply NoDup_seqZ].
  intros y y' _ _ H. congruence.
Qed.

Lemma NoDup_level_tiles z r : NoDup (level_tiles z r).
Proof.
  destruct r as [[[x_min x_max] ys] ye]. unfold level_tiles.
  apply NoDup_bind; [| intros; apply NoDup_column_tiles | apply NoDup_seqZ].
  intros x1 x2 t _ _ (y1 & -> & _)%elem_of_column_tiles (y2 & Heq & _)%elem_of_column_tiles.
  congruence.
Qed.

Lemma NoDup_candidate_tiles bounds z : NoDup (candidate_tiles bounds z).
Proof.
  unfold candidate_tiles. destruct (tile_range bounds z); [|constructor].
  apply NoDup_level_tiles.
Qed.

Lemma NoDup_all_candidates bounds zs :
  NoDup zs -> NoDup (zs ≫= candidate_tiles bounds).
Proof.
  intros Hzs. apply NoDup_bind; [| intros; apply NoDup_candidate_tiles | exact Hzs].
  intros z1 z2 t _ _ [_ H1]%candidate_in_grid [_ H2]%candidate_in_grid. congruence.
Qed.

Lemma candidate_path_inj bounds zs t t' :
  t ∈ zs ≫= candidate_tiles bounds -> t' ∈ zs ≫= candidate_tiles bounds ->
  task_path t = task_path t' -> t = t'.
Proof.
  intros (z & Ht & _)%list_elem_of_bind (z' & Ht' & _)%list_elem_of_bind.
  apply elem_of_candidate_tiles in Ht as (? & ? & ? & ? & x & y & _ & -> & _).
  apply elem_of_candidate_tiles in Ht' as (? & ? & ? & ? & x' & y' & _ & -> & _).
  cbn. intros (-> & -> & ->)%tile_path_inj. reflexivity.
Qed.

Lemma NoDup_pending_paths bounds zs w :
  NoDup zs -> NoDup (task_path <$> pending w (zs ≫= candidate_tiles bounds)).
Proof.
  intros Hzs. apply NoDup_fmap_2_strong.
  - intros t t' [_ Ht]%list_elem_of_filter [_ Ht']%list_elem_of_filter.
    apply (candidate_path_inj bounds zs); assumption.
  - apply NoDup_filter, NoDup_all_candidates, Hzs.
Qed.

Lemma level_tiles_empty z x_min x_max ys ye :
  x_max < x_min \/ ye < ys -> level_tiles z (x_min, x_max, ys, ye) = [].
Proof.
  intros H. destruct (level_tiles z _) as [|t l] eqn:Hl; [reflexivity|].
  assert (Ht : t ∈ level_tiles z (x_min, x_max, ys, ye))
    by (rewrite Hl; apply list_elem_of_here).
  apply elem_of_level_tiles in Ht as (x & y & _ & Hx & Hy). lia.
Qed.

(** C5: the destinations of the tasks of one planning pass over a range of
    zoom levels are pairwise different, and a level whose clamped column or
    row range is empty has no task in the pass. *)
Theorem plan_no_duplicate_paths E bounds (lo len : nat) w tasks w' :
  plan E bounds (seq lo len) w = (Ok tasks, w') ->
  NoDup (task_path <$> tasks) /\
  forall z x_min x_max y_start y_end,
    tile_range bounds z = Ok (x_min, x_max, y_start, y_end) ->
    x_max < x_min \/ y_end < y_start ->
    forall t, t ∈ tasks -> task_zoom t <> z.
Proof.
  intros [-> _]%plan_returns. split.
  - apply NoDup_pending_paths, NoDup_seq.
  - intros z x_min x_max ys ye Hr Hempty t [_ Ht]%list_elem_of_filter Hz.
    apply list_elem_of_bind in Ht as (z' & Ht & _).
    pose proof (candidate_in_grid _ _ _ Ht) as [_ Hz'].
    assert (Heq : z' = z) by congruence. rewrite Heq in Ht.
    unfold candidate_tiles in Ht. rewrite Hr, level_tiles_empty in Ht by exact Hempty.
    apply elem_of_nil in Ht. exact Ht.
Qed.

(** C10: every task a planning pass emits has its native column and row, and
    its stored row [(2^z - 1) - y_google], inside [0, 2^z - 1], whatever the
    bounding box. *)
Theorem plan_tasks_in_grid E bounds zooms w tasks w' :
  plan E bounds zooms w = (Ok tasks, w') -> Forall task_in_grid tasks.
Proof.
  intros [-> _]%plan_returns. apply Forall_forall.
  intros t [_ Ht]%list_elem_of_filter.
  apply list_elem_of_bind in Ht as (z & Ht & _).
  apply (candidate_in_grid _ _ _ Ht).
Qed.

End PlannerTheorems.

(** ** The configured bounding box at zoom 0 and 1 *)

Section WorldBox.
Local Open Scope R_scope.

Lemma latlon2xy_NW_0 : latlon2xy 85.05 (-180) 0 = Ok (0, 0)%Z.
Proof.
  rewrite latlon2xy_eq by lia. rewrite clamp_lat_id by lra.
  assert (Hn : 0 < 2 ^ 0) by (simpl; lra).
  pose proof (y_val_of_north 85.05 (2 ^ 0) ltac:(lra) Hn) as [H1 H2].
  simpl in *. f_equal. f_equal; apply py_int_cell; simpl; lra.
Qed.

Lemma latlon2xy_SE_0 : latlon2xy (-85.05) 180 0 = Ok (1, 0)%Z.
Proof.
  rewrite latlon2xy_eq by lia. rewrite clamp_lat_id by lra.
  assert (Hn : 0 < 2 ^ 0) by (simpl; lra).
  pose proof (y_val_of_south (-85.05) (2 ^ 0) ltac:(lra) Hn) as [H1 H2].
  simpl in *. f_equal. f_equal; apply py_int_cell; simpl; lra.
Qed.

Lemma latlon2xy_NW_1 : latlon2xy 85.05 (-180) 1 = Ok (0, 0)%Z.
Proof.
  rewrite latlon2xy_eq by lia. rewrite clamp_lat_id by lra.
  assert (Hn : 0 < 2 ^ 1) by (simpl; lra).
  pose proof (y_val_of_north 85.05 (2 ^ 1) ltac:(lra) Hn) as [H1 H2].
  simpl in *. f_equal. f_equal; apply py_int_cell; simpl; lra.
Qed.

Lemma latlon2xy_SE_1 : latlon2xy (-85.05) 180 1 = Ok (2, 1)%Z.
Proof.
  rewrite latlon2xy_eq by lia. rewrite clamp_lat_id by lra.
  assert (Hn : 0 < 2 ^ 1) by (simpl; lra).
  pose proof (y_val_of_south (-85.05) (2 ^ 1) ltac:(lra) Hn) as [H1 H2].
  simpl in *. f_equal. f_equal; apply py_int_cell; simpl; lra.
Qed.

Lemma tile_range_BOUNDS_0 : tile_range BOUNDS 0 = Ok (0, 0, 0, 0)%Z.
Proof.
  unfold tile_range, BOUNDS. rewrite latlon2xy_NW_0, latlon2xy_SE_0. reflexivity.
Qed.

Lemma tile_range_BOUNDS_1 : tile_range BOUNDS 1 = Ok (0, 1, 0, 1)%Z.
Proof.
  unfold tile_range, BOUNDS. rewrite latlon2xy_NW_1, latlon2xy_SE_1. reflexivity.
Qed.

Lemma candidate_tiles_BOUNDS_0 :
  candidate_tiles BOUNDS 0 = [(0, 0, 0%nat, tile_path 0 0 0)]%Z.
Proof. unfold candidate_tiles. rewrite tile_range_BOUNDS_0. reflexivity. Qed.

Lemma candidate_tiles_BOUNDS_1 :
  candidate_tiles BOUNDS 1 =
  [(0, 0, 1%nat, tile_path 1 0 0); (0, 1, 1%nat, tile_path 1 0 1);
   (1, 0, 1%nat, tile_path 1 1 0); (1, 1, 1%nat, tile_path 1 1 1)]%Z.
Proof. unfold candidate_tiles. rewrite tile_range_BOUNDS_1. reflexivity. Qed.

Lemma pending_all w l :
  (forall z x y, exists_b (tile_path z x y) w = false) ->
  Forall task_in_grid l -> pending w l = l.
Proof.
  intros Hw Hl. unfold pending. induction Hl as [|t l Ht _ IH]; [reflexivity|].
  rewrite filter_cons, IH. destruct t as [[[x y] z] p].
  destruct Ht as (_ & _ & _ & ->). cbn.
  rewrite decide_True by apply Hw. reflexivity.
Qed.

Lemma exists_b_empty_world p : exists_b p empty_world = false.
Proof.
  unfold exists_b, empty_world. cbn.
  rewrite !bool_decide_eq_false_2; [reflexivity | set_solver | set_solver].
Qed.

(** C2: with the configured bounding box, no destination on disk and no
    directory fault, a pass over zoom 0 emits exactly the tile (0, 0) and a
    pass over zoom 1 exactly the four tiles of the 2x2 grid. *)
Theorem plan_BOUNDS_zoom_0_and_1 E w :
  (forall p, makedirs_ok E p = true) ->
  (forall z x y, exists_b (tile_path z x y) w = false) ->
  (exists w', plan E BOUNDS (seq 0 1) w =
     (Ok [(0, 0, 0%nat, "E:/Map/GoogleSat/0/0/0.jpg")]%Z, w')) /\
  (exists w', plan E BOUNDS (seq 1 1) w =
     (Ok [(0, 0, 1%nat, "E:/Map/GoogleSat/1/0/1.jpg");
          (0, 1, 1%nat, "E:/Map/GoogleSat/1/0/0.jpg");
          (1, 0, 1%nat, "E:/Map/GoogleSat/1/1/1.jpg");
          (1, 1, 1%nat, "E:/Map/GoogleSat/1/1/0.jpg")]%Z, w')).
Proof.
  intros Hok Hw. split.
  - destruct (plan_total E BOUNDS (seq 0 1) w Hok (small_levels 0 1 ltac:(lia))) as [w' Hp].
    exists w'. rewrite Hp. f_equal. f_equal.
    cbn [seq mbind list_bind]. rewrite app_nil_r, candidate_tiles_BOUNDS_0.
    apply pending_all; [exact Hw|].
    repeat constructor; cbn; lia.
  - destruct (plan_total E BOUNDS (seq 1 1) w Hok (small_levels 1 1 ltac:(lia))) as [w' Hp].
    exists w'. rewrite Hp. f_equal. f_equal.
    cbn [seq mbind list_bind]. rewrite app_nil_r, candidate_tiles_BOUNDS_1.
    apply pending_all; [exact Hw|].
    repeat constructor; cbn; lia.
Qed.

Lemma plan_BOUNDS_zoom_0_and_1_witness :
  (exists w', plan quiet_env BOUNDS (seq 0 1) empty_world =
     (Ok [(0, 0, 0%nat, "E:/Map/GoogleSat/0/0/0.jpg")]%Z, w')) /\
  (exists w', plan quiet_env BOUNDS (seq 1 1) empty_world =
     (Ok [(0, 0, 1%nat, "E:/Map/GoogleSat/1/0/1.jpg");
          (0, 1, 1%nat, "E:/Map/GoogleSat/1/0/0.jpg");
          (1, 0, 1%nat, "E:/Map/GoogleSat/1/1/1.jpg");
          (1, 1, 1%nat, "E:/Map/GoogleSat/1/1/0.jpg")]%Z, w')).
Proof.
  apply (plan_BOUNDS_zoom_0_and_1 quiet_env empty_world).
  - intros p. reflexivity.
  - intros z x y. apply exists_b_empty_world.
Defined.

(** In the fault-free environment every pass over levels below 1024
    returns. *)
Lemma plan_quiet bounds (lo len : nat) w :
  (lo + len <= 1024)%nat ->
  exists w', plan quiet_env bounds (seq lo len) w =
    (Ok (pending w (seq lo len ≫= candidate_tiles bounds)), w').
Proof.
  intros H. apply plan_total; [intros p; reflexivity | apply small_levels, H].
Qed.

(** A box west of the map: at zoom 2 its clamped column range is empty. *)
Lemma tile_range_west_of_map :
  exists y_start y_end,
    tile_range (-400, -10, -300, 10) 2 = Ok (0, -1, y_start, y_end)%Z.
Proof.
  unfold tile_range. rewrite !latlon2xy_eq by lia. cbn [mbind result_bind].
  rewrite (py_int_neg_cell ((-400 + 180) / 360 * 2 ^ 2) 2) by (simpl; lra).
  rewrite (py_int_neg_cell ((-300 + 180) / 360 * 2 ^ 2) 1) by (simpl; lra).
  eexists _, _. reflexivity.
Qed.

End WorldBox.

(** ** Directory faults during planning *)

Section DirectoryFaults.
Context (E : env) (d : string).
Hypothesis Hmk : makedirs_ok E d = false.

Lemma columns_fault (z : nat) ys ye xs : forall tasks w,
  exists_b d w = false ->
  (exists x, x ∈ xs /\
     d = path_join (path_join SAVE_PATH (str (Z.of_nat z))) (str x)) ->
  exists w',
    for_acc xs tasks (plan_column E (path_join SAVE_PATH (str (Z.of_nat z))) z ys ye) w
    = (Raise OSError, w').
Proof.
  induction xs as [|a xs IH]; intros tasks w Hex (x & Hx & Hd).
  - apply elem_of_nil in Hx. contradiction.
  - cbn [for_acc]. rewrite M_bind_eq.
    destruct (outcome_plan_column E False z ys ye a tasks w)
      as (w1 & Hs & [Hr | [[Hr _] | [_ []]]]); rewrite Hr; [|eauto].
    apply elem_of_cons in Hx as [-> | Hx].
    + rewrite plan_column_dir_fault in Hr; [discriminate | |]; rewrite <- Hd; assumption.
    + apply IH; [eapply planned_still_missing; eassumption | eauto].
Qed.

Lemma level_fault bounds (z : nat) tasks w x_min x_max ys ye :
  tile_range bounds z = Ok (x_min, x_max, ys, ye) ->
  exists_b d w = false ->
  (d = path_join SAVE_PATH (str (Z.of_nat z)) \/
   exists x, (x_min <= x <= x_max)%Z /\
     d = path_join (path_join SAVE_PATH (str (Z.of_nat z))) (str x)) ->
  exists w', plan_level E bounds z tasks w = (Raise OSError, w').
Proof.
  intros Hr Hex Hd. unfold plan_level. rewrite M_bind_eq. unfold lift. rewrite Hr.
  rewrite M_bind_eq.
  destruct Hd as [Hd | (x & Hx & Hd)].
  - rewrite ensure_dir_fault by (rewrite <- Hd; assumption). eauto.
  - destruct (outcome_ensure_dir E False (path_join SAVE_PATH (str (Z.of_nat z))) w
                (z_dir_dotless _)) as (w1 & Hs & [Ha | [[Ha _] | [_ []]]]);
      rewrite Ha; [|eauto].
    apply columns_fault; [eapply planned_still_missing; eassumption|].
    exists x. split; [|exact Hd]. unfold py_range. apply elem_of_seqZ. lia.
Qed.

Lemma levels_fault bounds zs : forall tasks w,
  Forall (fun z => z < 1024)%nat zs ->
  exists_b d w = false -> needed_dir bounds zs d ->
  exists w', for_acc zs tasks (plan_level E bounds) w = (Raise OSError, w').
Proof.
  induction zs as [|a zs IH]; intros tasks w Hzs Hex
    (z & x_min & x_max & ys & ye & Hz & Hr & Hd).
  - apply elem_of_nil in Hz. contradiction.
  - apply Forall_cons in Hzs as [Ha Hzs]. cbn [for_acc]. rewrite M_bind_eq.
    destruct (outcome_plan_level E bounds a tasks w)
      as (w1 & Hs & [Hl | [[Hl _] | [_ Hov]]]); [| rewrite Hl; eauto | lia].
    apply elem_of_cons in Hz as [-> | Hz].
    + destruct (level_fault bounds a tasks w _ _ _ _ Hr Hex Hd) as [w' Hf].
      rewrite Hf in Hl. discriminate.
    + rewrite Hl. apply IH;
        [exact Hzs | eapply planned_still_missing; eassumption|].
      exists z, x_min, x_max, ys, ye. auto.
Qed.

(** A needed directory that is missing and cannot be created ends the
    planning pass on an [OSError], with no file written and no request sent. *)
Lemma plan_fault bounds zs w :
  Forall (fun z => z < 1024)%nat zs ->
  exists_b d w = false -> needed_dir bounds zs d ->
  exists w', plan E bounds zs w = (Raise OSError, w') /\
    files w' = files w /\ requests w' = requests w.
Proof.
  intros Hzs Hex Hd.
  destruct (levels_fault bounds zs [] w Hzs Hex Hd) as [w' Hf].
  exists w'. split; [exact Hf|].
  destruct (outcome_plan E bounds zs w)
    as (w1 & [(Hfi & Hrq & _) _] & [Hr | [[Hr _] | [Hr _]]]);
    unfold plan in Hr; rewrite Hf in Hr; try discriminate.
  injection Hr as <-. auto.
Qed.

(** The same for the whole run: it ends before any fetch. *)
Lemma main_fault sched w :
  d = SAVE_PATH \/ needed_dir BOUNDS ZOOM_LEVELS d ->
  exists_b d w = false ->
  exists w', main E sched w = (Raise OSError, w') /\
    files w' = files w /\ requests w' = requests w.
Proof.
  intros Hd Hex. unfold main. rewrite M_bind_eq.
  destruct Hd as [-> | Hd].
  { rewrite (ensure_dir_fault E _ _ Hex Hmk). eauto. }
  destruct (outcome_ensure_dir E False SAVE_PATH w str_mem_dot_SAVE_PATH)
    as (wa & Hs & [Ha | [[Ha _] | [_ []]]]); rewrite Ha.
  - rewrite M_bind_eq.
    destruct (plan_fault BOUNDS ZOOM_LEVELS wa) as (wb & Hb & Hfb & Hrb).
    + apply (small_levels 0 9). lia.
    + eapply planned_still_missing; eassumption.
    + exact Hd.
    + rewrite Hb. exists wb. split; [reflexivity|].
      destruct Hs as [(Hfa & Hra & _) _]. split; congruence.
  - exists wa. split; [reflexivity|].
    destruct Hs as [(Hfa & Hra & _) _]. auto.
Qed.

End DirectoryFaults.

(** ** The fetch executor *)

Section ExecutorFacts.
Context (E : env).
Local Open Scope Z_scope.

Lemma download_task_eq t w :
  download_task E t w = (Ok (task_result E t), task_effect E w t).
Proof.
  destruct t as [[[x y] z] p].
  unfold download_task, task_result, task_effect, try_except_Exception.
  rewrite M_bind_eq. unfold http_get. cbn [task_url task_path snd].
  destruct (session_get E (URL_TEMPLATE x y (Z.of_nat z))) as [s c|]; [|reflexivity].
  destruct (s =? 200) eqn:H200.
  - rewrite M_bind_eq. unfold write_file. cbn [andb].
    destruct (open_ok E p); reflexivity.
  - cbn [andb]. destruct ((s =? 404) || (s =? 400))%bool; reflexivity.
Qed.

Lemma execute_loop order : forall completed downloaded_count w,
  for_acc order (completed, downloaded_count)
    (fun t '(completed, downloaded_count) =>
       res ← download_task E t;
       mret (completed + 1,
             if res =? 1 then downloaded_count + 1 else downloaded_count)) w =
  (Ok (completed + Z.of_nat (length order),
       downloaded_count
       + Z.of_nat (length (filter (fun t => task_result E t = 1) order))),
   foldl (task_effect E) w order).
Proof.
  induction order as [|t order IH]; intros completed downloaded_count w.
  - cbn. rewrite !Z.add_0_r. reflexivity.
  - cbn [for_acc]. rewrite M_bind_eq, M_bind_eq, download_task_eq.
    cbn [mret M_ret]. rewrite IH. cbn [foldl length]. rewrite filter_cons.
    f_equal. f_equal. f_equal; [lia|].
    destruct (decide (task_result E t = 1)) as [Heq|Hne].
    + rewrite Heq. cbn [Z.eqb Pos.eqb length]. lia.
    + apply Z.eqb_neq in Hne. rewrite Hne. lia.
Qed.

Lemma execute_eq order w :
  execute E order w =
  (Ok (Z.of_nat (length order),
       Z.of_nat (length (filter (fun t => task_result E t = 1) order))),
   foldl (task_effect E) w order).
Proof. unfold execute. rewrite execute_loop. reflexivity. Qed.

Lemma task_effect_requests w t :
  requests (task_effect E w t) = requests w ++ [task_url t].
Proof.
  unfold task_effect. destruct (session_get E (task_url t)) as [s c|]; [|reflexivity].
  destruct ((s =? 200) && open_ok E (task_path t))%bool; reflexivity.
Qed.

Lemma run_requests order : forall w,
  requests (foldl (task_effect E) w order) = requests w ++ (task_url <$> order).
Proof.
  induction order as [|t order IH]; intros w; cbn [foldl fmap list_fmap].
  - rewrite app_nil_r. reflexivity.
  - rewrite IH, task_effect_requests, <- app_assoc. reflexivity.
Qed.

Lemma task_effect_files_other w t :
  task_result E t <> 1 -> files (task_effect E w t) = files w.
Proof.
  unfold task_result, task_effect.
  destruct (session_get E (task_url t)) as [s c|]; [|reflexivity].
  destruct (s =? 200); [|reflexivity].
  destruct (open_ok E (task_path t)); [congruence | reflexivity].
Qed.

Lemma run_files_unchanged order : forall w,
  (forall t, t ∈ order -> task_result E t <> 1) ->
  files (foldl (task_effect E) w order) = files w.
Proof.
  induction order as [|t order IH]; intros w H; [reflexivity|].
  cbn [foldl]. rewrite IH.
  - apply task_effect_files_other, H, list_elem_of_here.
  - intros t' Ht'. apply H, list_elem_of_further, Ht'.
Qed.

Lemma task_effect_files_200 w t b :
  session_get E (task_url t) = Response 200 b -> open_ok E (task_path t) = true ->
  files (task_effect E w t) = <[ task_path t := b ]> (files w).
Proof. intros Hs Ho. unfold task_effect. rewrite Hs, Ho. reflexivity. Qed.

Lemma run_files_200 b order : forall w t,
  (forall t, t ∈ order -> session_get E (task_url t) = Response 200 b) ->
  (forall t, t ∈ order -> open_ok E (task_path t) = true) ->
  t ∈ order ->
  files (foldl (task_effect E) w order) !! task_path t = Some b.
Proof.
  induction order as [|t0 order IH] using rev_ind; intros w t Hs Ho Ht.
  - apply elem_of_nil in Ht. contradiction.
  - rewrite foldl_app. cbn [foldl].
    assert (Hin : t0 ∈ order ++ [t0])
      by (apply elem_of_app; right; apply list_elem_of_here).
    rewrite (task_effect_files_200 _ t0 b (Hs t0 Hin) (Ho t0 Hin)).
    destruct (decide (task_path t0 = task_path t)) as [Heq|Hne].
    + rewrite Heq. apply lookup_insert_eq.
    + rewrite lookup_insert_ne by exact Hne.
      apply elem_of_app in Ht as [Ht | Ht%list_elem_of_singleton].
      * apply IH; [| | exact Ht].
        -- intros t' Ht'. apply Hs, elem_of_app. left. exact Ht'.
        -- intros t' Ht'. apply Ho, elem_of_app. left. exact Ht'.
      * subst t. contradiction.
Qed.

Lemma task_result_404 t c :
  session_get E (task_url t) = Response 404 c -> task_result E t = 0.
Proof. intros H. unfold task_result. rewrite H. reflexivity. Qed.

Lemma task_result_200 t c :
  session_get E (task_url t) = Response 200 c -> open_ok E (task_path t) = true ->
  task_result E t = 1.
Proof. intros H Ho. unfold task_result. rewrite H, Ho. reflexivity. Qed.

Lemma filter_length_le {A} (P : A -> Prop) `{forall x, Decision (P x)} (l : list A) :
  (length (filter P l) <= length l)%nat.
Proof.
  induction l as [|a l IH]; [reflexivity|].
  rewrite filter_cons. destruct (decide (P a)); cbn [length]; lia.
Qed.

Lemma filter_none {A} (P : A -> Prop) `{forall x, Decision (P x)} (l : list A) :
  (forall x, x ∈ l -> ~ P x) -> filter P l = [].
Proof.
  induction l as [|a l IH]; intros Hl; [reflexivity|].
  rewrite filter_cons, decide_False by (apply Hl, list_elem_of_here).
  apply IH. intros x Hx. apply Hl, list_elem_of_further, Hx.
Qed.

Lemma filter_all {A} (P : A -> Prop) `{forall x, Decision (P x)} (l : list A) :
  (forall x, x ∈ l -> P x) -> filter P l = l.
Proof.
  induction l as [|a l IH]; intros Hl; [reflexivity|].
  rewrite filter_cons, decide_True by (apply Hl, list_elem_of_here).
  f_equal. apply IH. intros x Hx. apply Hl, list_elem_of_further, Hx.
Qed.

End ExecutorFacts.

Section ExecutorTheorems.
Local Open Scope Z_scope.

(** C3: [download_task] sends one request and classifies the answer: 200
    gives 1 (Success) with the body stored at the destination; 404 and 400
    give 0 (NotFound); any other status and any exception (a transport fault,
    or the destination failing to open) give -1 (TransientFailure); outside
    the first case no file is written.  The executor sends exactly one request
    per task, in the order it runs them: nothing is retried. *)
Theorem download_task_classifies E t w :
  (forall c, session_get E (task_url t) = Response 200 c ->
     open_ok E (task_path t) = true ->
     download_task E t w =
       (Ok 1, store (task_path t) c (log_request (task_url t) w))) /\
  (forall c, session_get E (task_url t) = Response 200 c ->
     open_ok E (task_path t) = false ->
     download_task E t w = (Ok (-1), log_request (task_url t) w)) /\
  (forall s c, session_get E (task_url t) = Response s c -> s = 404 \/ s = 400 ->
     download_task E t w = (Ok 0, log_request (task_url t) w)) /\
  (forall s c, session_get E (task_url t) = Response s c ->
     s <> 200 -> s <> 404 -> s <> 400 ->
     download_task E t w = (Ok (-1), log_request (task_url t) w)) /\
  (session_get E (task_url t) = ConnectionFault ->
     download_task E t w = (Ok (-1), log_request (task_url t) w)) /\
  (forall order, requests (execute E order w).2 = requests w ++ (task_url <$> order)).
Proof.
  rewrite download_task_eq. unfold task_result, task_effect. repeat split.
  - intros c Hs Ho. rewrite Hs, Ho. reflexivity.
  - intros c Hs Ho. rewrite Hs, Ho. reflexivity.
  - intros s c Hs [-> | ->]; rewrite Hs; reflexivity.
  - intros s c Hs H200 H404 H400. rewrite Hs.
    apply Z.eqb_neq in H200, H404, H400. rewrite H200, H404, H400. reflexivity.
  - intros Hs. rewrite Hs. reflexivity.
  - intros order. rewrite execute_eq. apply run_requests.
Qed.

Lemma download_task_classifies_witness :
  download_task quiet_env (0, 0, 0%nat, "E:/Map/GoogleSat/0/0/0.jpg") empty_world =
    (Ok 0, log_request "http://mt1.google.com/vt/lyrs=s&x=0&y=0&z=0" empty_world) /\
  download_task (serving_env []) (0, 0, 0%nat, "E:/Map/GoogleSat/0/0/0.jpg") empty_world =
    (Ok 1, store "E:/Map/GoogleSat/0/0/0.jpg" []
             (log_request "http://mt1.google.com/vt/lyrs=s&x=0&y=0&z=0" empty_world)).
Proof.
  split.
  - apply (proj1 (proj2 (proj2 (download_task_classifies quiet_env
             (0, 0, 0%nat, "E:/Map/GoogleSat/0/0/0.jpg") empty_world))) 404 []).
    + reflexivity.
    + left. reflexivity.
  - apply (proj1 (download_task_classifies (serving_env [])
             (0, 0, 0%nat, "E:/Map/GoogleSat/0/0/0.jpg") empty_world) []).
    + reflexivity.
    + reflexivity.
Defined.

(** C4: whatever order the pool runs the tasks in, the executor completes
    every task once ([attempted = len(tasks)], one request per task) and counts
    each task that returned 1 once.  If the server answers 404 to every task,
    nothing succeeds and no file changes; if it answers 200 with the same
    bytes to every task (and the destinations open), every task succeeds and
    every destination holds exactly those bytes. *)
Theorem execute_summary E tasks order w :
  order ≡ₚ tasks ->
  exists attempted succeeded w',
    execute E order w = (Ok (attempted, succeeded), w') /\
    attempted = Z.of_nat (length tasks) /\
    succeeded = Z.of_nat (length (filter (fun t => task_result E t = 1) tasks)) /\
    0 <= succeeded <= attempted /\
    requests w' ≡ₚ requests w ++ (task_url <$> tasks) /\
    ((forall t, t ∈ tasks -> exists c, session_get E (task_url t) = Response 404 c) ->
       succeeded = 0 /\ files w' = files w) /\
    (forall b,
       (forall t, t ∈ tasks -> session_get E (task_url t) = Response 200 b) ->
       (forall t, t ∈ tasks -> open_ok E (task_path t) = true) ->
       succeeded = Z.of_nat (length tasks) /\
       forall t, t ∈ tasks -> files w' !! task_path t = Some b).
Proof.
  intros Hperm. eexists _, _, _. split; [apply execute_eq|].
  pose proof (filter_length_le (fun t => task_result E t = 1) order) as Hle.
  rewrite <- (Permutation_length Hperm).
  split; [reflexivity|].
  split; [rewrite Hperm; reflexivity|].
  split; [lia|]. split.
  { rewrite run_requests, Hperm. reflexivity. }
  split.
  - intros H404.
    assert (Hno : forall t, t ∈ order -> task_result E t <> 1).
    { intros t Ht. rewrite Hperm in Ht. destruct (H404 t Ht) as [c Hc].
      rewrite (task_result_404 E t c Hc). discriminate. }
    rewrite (filter_none _ _ Hno). split; [reflexivity|].
    apply run_files_unchanged, Hno.
  - intros b H200 Hopen.
    assert (Hall : forall t, t ∈ order -> task_result E t = 1).
    { intros t Ht. rewrite Hperm in Ht.
      apply (task_result_200 E t b); [apply H200 | apply Hopen]; exact Ht. }
    rewrite (filter_all _ _ Hall). split; [reflexivity|].
    intros t Ht. apply run_files_200.
    + intros t' Ht'. apply H200. rewrite <- Hperm. exact Ht'.
    + intros t' Ht'. apply Hopen. rewrite <- Hperm. exact Ht'.
    + rewrite Hperm. exact Ht.
Qed.

Lemma execute_summary_witness :
  let tasks := [(0, 0, 1%nat, "E:/Map/GoogleSat/1/0/1.jpg");
                (0, 1, 1%nat, "E:/Map/GoogleSat/1/0/0.jpg")] in
  let order := [(0, 1, 1%nat, "E:/Map/GoogleSat/1/0/0.jpg");
                (0, 0, 1%nat, "E:/Map/GoogleSat/1/0/1.jpg")] in
  (exists attempted succeeded w',
     execute quiet_env order empty_world = (Ok (attempted, succeeded), w') /\
     attempted = 2 /\ succeeded = 0 /\ files w' = ∅) /\
  (exists attempted succeeded w',
     execute (serving_env [Byte.x78]) order empty_world =
       (Ok (attempted, succeeded), w') /\
     attempted = 2 /\ succeeded = 2 /\
     forall t, t ∈ tasks -> files w' !! task_path t = Some [Byte.x78]).
Proof.
  intros tasks order. split.
  - destruct (execute_summary quiet_env tasks order empty_world)
      as (attempted & succeeded & w' & Hrun & Hatt & _ & _ & _ & H404 & _).
    + apply Permutation_swap.
    + exists attempted, succeeded, w'.
      destruct H404 as [Hs Hf]; [intros t _; exists []; reflexivity|].
      repeat split; assumption.
  - destruct (execute_summary (serving_env [Byte.x78]) tasks order empty_world)
      as (attempted & succeeded & w' & Hrun & Hatt & _ & _ & _ & _ & H200).
    + apply Permutation_swap.
    + exists attempted, succeeded, w'.
      destruct (H200 [Byte.x78]) as [Hs Hf];
        [intros t _; reflexivity | intros t _; reflexivity |].
      repeat split; assumption.
Defined.

(** C7, counterexample: when the directory of zoom level 0 cannot be
    created, the run ends on the uncaught [OSError] of the planning loop; no
    request has been sent and no file written. *)
Lemma main_stops_on_directory_fault :
  exists w', main broken_dir_env (fun tasks => tasks) empty_world = (Raise OSError, w') /\
    requests w' = [] /\ files w' = ∅.
Proof.
  exists (add_dir SAVE_PATH empty_world). split; [|split; reflexivity].
  unfold main. rewrite M_bind_eq.
  assert (H1 : ensure_dir broken_dir_env SAVE_PATH empty_world =
               (Ok tt, add_dir SAVE_PATH empty_world)).
  { unfold ensure_dir. rewrite M_bind_eq. unfold os_path_exists.
    rewrite exists_b_empty_world. reflexivity. }
  rewrite H1, M_bind_eq.
  assert (H2 : plan broken_dir_env BOUNDS ZOOM_LEVELS (add_dir SAVE_PATH empty_world) =
               (Raise OSError, add_dir SAVE_PATH empty_world)).
  { unfold plan, ZOOM_LEVELS. cbn [seq for_acc]. rewrite M_bind_eq.
    rewrite plan_level_dir_fault; [reflexivity | lia | | reflexivity].
    unfold exists_b. rewrite !bool_decide_eq_false_2; [reflexivity | |].
    - cbn. intros [H | H]%elem_of_union; [|set_solver].
      apply elem_of_singleton in H. discriminate.
    - cbn. set_solver. }
  rewrite H2. reflexivity.
Qed.

(** C7, amended: a fault opening the destination is caught inside
    [download_task]: the task does not count as a success (-1 when the server
    had answered 200), no file changes, and the executor still completes every
    task of the run.  Directories are created by the planning loop, not by a
    task, and a fault there is not caught: a level directory or a column
    directory that is missing and cannot be created raises [OSError] out of
    its loop body, out of the planning pass and out of the run, which ends
    with no request sent and no file written. *)
Theorem file_fault_is_local E :
  (forall t w, open_ok E (task_path t) = false ->
     exists r, download_task E t w = (Ok r, log_request (task_url t) w) /\
       r <> 1 /\
       ((exists c, session_get E (task_url t) = Response 200 c) -> r = -1)) /\
  (forall order w, exists succeeded w',
     execute E order w = (Ok (Z.of_nat (length order), succeeded), w') /\
     requests w' = requests w ++ (task_url <$> order)) /\
  (forall bounds z tasks w,
     (z < 1024)%nat ->
     exists_b (path_join SAVE_PATH (str (Z.of_nat z))) w = false ->
     makedirs_ok E (path_join SAVE_PATH (str (Z.of_nat z))) = false ->
     plan_level E bounds z tasks w = (Raise OSError, w)) /\
  (forall z_dir z y_start y_end x tasks w,
     exists_b (path_join z_dir (str x)) w = false ->
     makedirs_ok E (path_join z_dir (str x)) = false ->
     plan_column E z_dir z y_start y_end x tasks w = (Raise OSError, w)) /\
  (forall bounds zooms d w,
     Forall (fun z => z < 1024)%nat zooms -> needed_dir bounds zooms d ->
     exists_b d w = false -> makedirs_ok E d = false ->
     exists w', plan E bounds zooms w = (Raise OSError, w') /\
       files w' = files w /\ requests w' = requests w) /\
  (forall sched d w,
     d = SAVE_PATH \/ needed_dir BOUNDS ZOOM_LEVELS d ->
     exists_b d w = false -> makedirs_ok E d = false ->
     exists w', main E sched w = (Raise OSError, w') /\
       files w' = files w /\ requests w' = requests w).
Proof.
  split; [|split; [|split; [|split; [|split]]]].
  - intros t w Ho. exists (task_result E t). rewrite download_task_eq.
    unfold task_result, task_effect. rewrite Ho.
    destruct (session_get E (task_url t)) as [s c|].
    + rewrite andb_false_r. split; [reflexivity|].
      destruct (s =? 200) eqn:H200.
      * split; [discriminate | reflexivity].
      * split.
        -- destruct ((s =? 404) || (s =? 400))%bool; discriminate.
        -- intros [c' Hc']. injection Hc' as -> _. discriminate.
    + split; [reflexivity|]. split; [discriminate | reflexivity].
  - intros order w. eexists _, _. rewrite execute_eq. split; [reflexivity|].
    apply run_requests.
  - intros bounds z tasks w. apply plan_level_dir_fault.
  - intros z_dir z ys ye x tasks w. apply plan_column_dir_fault.
  - intros bounds zooms d w Hzs Hd Hex Hmk. apply (plan_fault E d Hmk); assumption.
  - intros sched d w Hd Hex Hmk. apply (main_fault E d Hmk); assumption.
Qed.

Lemma file_fault_is_local_witness :
  (let E := Env (fun _ => Response 200 []) (fun _ => true) (fun _ => false) in
   exists r,
     download_task E (0, 0, 0%nat, "E:/Map/GoogleSat/0/0/0.jpg") empty_world =
       (Ok r, log_request "http://mt1.google.com/vt/lyrs=s&x=0&y=0&z=0" empty_world) /\
     r <> 1 /\
     ((exists c, Response 200 [] = Response 200 c) -> r = -1)) /\
  (exists w', main broken_column_env (fun tasks => tasks) empty_world = (Raise OSError, w') /\
     files w' = files empty_world /\ requests w' = requests empty_world).
Proof.
  split.
  - intros E.
    apply (proj1 (file_fault_is_local E)
             (0, 0, 0%nat, "E:/Map/GoogleSat/0/0/0.jpg") empty_world).
    reflexivity.
  - apply (proj2 (proj2 (proj2 (proj2 (proj2 (file_fault_is_local broken_column_env)))))
             (fun tasks => tasks) "E:/Map/GoogleSat/1/1" empty_world).
    + right. exists 1%nat, 0, 1, 0, 1. split.
      * unfold ZOOM_LEVELS. apply elem_of_seq. lia.
      * split; [exact tile_range_BOUNDS_1|]. right. exists 1.
        split; [lia | reflexivity].
    + apply exists_b_empty_world.
    + reflexivity.
Defined.

End ExecutorTheorems.

(** ** Witnesses of the planner theorems *)

Section PlannerWitnesses.

Lemma plan_no_duplicate_paths_witness :
  (exists tasks w',
     plan quiet_env BOUNDS (seq 0 2) empty_world = (Ok tasks, w') /\
     NoDup (task_path <$> tasks)) /\
  (exists tasks w',
     plan quiet_env (-400, -10, -300, 10)%R (seq 2 1) empty_world = (Ok tasks, w') /\
     forall t, t ∈ tasks -> task_zoom t <> 2).
Proof.
  split.
  - destruct (plan_quiet BOUNDS 0 2 empty_world) as [w' Hp].
    + lia.
    + eexists _, w'. split; [exact Hp|].
      exact (proj1 (plan_no_duplicate_paths quiet_env BOUNDS 0 2 empty_world _ w' Hp)).
  - destruct (plan_quiet (-400, -10, -300, 10)%R 2 1 empty_world)
      as [w' Hp].
    + lia.
    + destruct tile_range_west_of_map as (y_start & y_end & Hr).
      eexists _, w'. split; [exact Hp|].
      apply (proj2 (plan_no_duplicate_paths quiet_env _ 2 1 empty_world _ w' Hp)
               2 0%Z (-1)%Z y_start y_end Hr).
      left. reflexivity.
Defined.

Lemma plan_tasks_in_grid_witness :
  exists tasks w',
    plan quiet_env BOUNDS (seq 0 2) empty_world = (Ok tasks, w') /\
    Forall task_in_grid tasks.
Proof.
  destruct (plan_quiet BOUNDS 0 2 empty_world) as [w' Hp].
  - lia.
  - eexists _, w'. split; [exact Hp|].
    exact (plan_tasks_in_grid quiet_env BOUNDS (seq 0 2) empty_world _ w' Hp).
Defined.

End PlannerWitnesses.

(** ** The descriptor *)

Section DescriptorTheorems.

Lemma generate_mercator_xml_writes E path min_zoom max_zoom ext text w :
  xml_document min_zoom max_zoom ext = Ok text ->
  open_ok E (path_join path "tilemapresource.xml") = true ->
  generate_mercator_xml E path min_zoom max_zoom ext w =
  (Ok tt, store (path_join path "tilemapresource.xml")
                (String.list_byte_of_string text) w).
Proof.
  intros Hdoc Hopen. unfold generate_mercator_xml.
  rewrite M_bind_eq. unfold lift. rewrite Hdoc. unfold write_file.
  rewrite Hopen. reflexivity.
Qed.



End DescriptorTheorems.

(** ** Monotonicity of the column and non-empty levels *)

Section Coverage.
Local Open Scope R_scope.










End Coverage.

(** ** More on the planner: what a pass emits, requests and touches *)

Section PlannerCoverage.
Local Open Scope Z_scope.

Lemma elem_of_candidate_tiles_iff t bounds z :
  t ∈ candidate_tiles bounds z <->
  exists x_min x_max ys ye x y,
    tile_range bounds z = Ok (x_min, x_max, ys, ye) /\
    t = (x, y, z, tile_path z x y) /\
    x_min <= x <= x_max /\ ys <= y <= ye.
Proof.
  split; [apply elem_of_candidate_tiles|].
  intros (x_min & x_max & ys & ye & x & y & Hr & -> & Hx & Hy).
  unfold candidate_tiles. rewrite Hr. unfold level_tiles, py_range.
  apply list_elem_of_bind. exists x. split.
  - unfold column_tiles, py_range. apply list_elem_of_fmap. exists y.
    split; [reflexivity|]. apply elem_of_seqZ. lia.
  - apply elem_of_seqZ. lia.
Qed.

(** X4: a planning pass that returns emits exactly the tiles of the clamped
    rectangles of its levels whose destination does not exist yet: nothing on
    disk is planned again and nothing missing is left out. *)
Theorem plan_emits_exactly E bounds zooms w tasks w' t :
  plan E bounds zooms w = (Ok tasks, w') ->
  (t ∈ tasks <->
   exists_b (task_path t) w = false /\
   exists z x_min x_max y_start y_end x y,
     z ∈ zooms /\
     tile_range bounds z = Ok (x_min, x_max, y_start, y_end) /\
     x_min <= x <= x_max /\ y_start <= y <= y_end /\
     t = (x, y, z, tile_path z x y)).
Proof.
  intros [-> _]%plan_returns. unfold pending.
  rewrite list_elem_of_filter, list_elem_of_bind.
  split.
  - intros [Hex (z & Ht & Hz)]. split; [exact Hex|].
    apply elem_of_candidate_tiles_iff in Ht
      as (x_min & x_max & ys & ye & x & y & Hr & -> & Hx & Hy).
    exists z, x_min, x_max, ys, ye, x, y. auto.
  - intros [Hex (z & x_min & x_max & ys & ye & x & y & Hz & Hr & Hx & Hy & ->)].
    split; [exact Hex|]. exists z. split; [|exact Hz].
    apply elem_of_candidate_tiles_iff.
    exists x_min, x_max, ys, ye, x, y. auto.
Qed.

Lemma plan_emits_exactly_witness :
  exists tasks w',
    plan quiet_env BOUNDS (seq 0 2) empty_world = (Ok tasks, w') /\
    ((1, 0, 1%nat, tile_path 1 1 0) ∈ tasks <->
     exists_b (task_path (1, 0, 1%nat, tile_path 1 1 0)) empty_world = false /\
     exists z x_min x_max y_start y_end x y,
       z ∈ seq 0 2 /\
       tile_range BOUNDS z = Ok (x_min, x_max, y_start, y_end) /\
       x_min <= x <= x_max /\ y_start <= y <= y_end /\
       (1, 0, 1%nat, tile_path 1 1 0) = (x, y, z, tile_path z x y)).
Proof.
  destruct (plan_quiet BOUNDS 0 2 empty_world) as [w' Hp].
  - lia.
  - eexists _, w'. split; [exact Hp|].
    exact (plan_emits_exactly quiet_env BOUNDS (seq 0 2) empty_world _ w' _ Hp).
Defined.

(** X5: planning, whether it returns or stops on a directory fault, writes no
    file and sends no request. *)
Theorem plan_leaves_files_and_network E bounds zooms w :
  files (plan E bounds zooms w).2 = files w /\
  requests (plan E bounds zooms w).2 = requests w.
Proof.
  destruct (outcome_plan E bounds zooms w)
    as (w1 & [(Hf & Hr & _) _] & [Hp | [[Hp _] | [Hp _]]]);
    rewrite Hp; cbn [snd]; auto.
Qed.

Lemma plan_level_returns E bounds z tasks w tasks' w' :
  plan_level E bounds z tasks w = (Ok tasks', w') ->
  tasks' = tasks ++ pending w (candidate_tiles bounds z).
Proof.
  intros H.
  destruct (outcome_plan_level E bounds z tasks w) as (w1 & _ & [Hr | [[Hr _] | [Hr _]]]).
  - rewrite Hr in H. injection H as <- _. reflexivity.
  - rewrite Hr in H. discriminate.
  - rewrite Hr in H. discriminate.
Qed.

Lemma length_level_tiles z x_min x_max ys ye :
  length (level_tiles z (x_min, x_max, ys, ye)) =
  (Z.to_nat (x_max + 1 - x_min) * Z.to_nat (ye + 1 - ys))%nat.
Proof.
  unfold level_tiles, py_range.
  generalize (seqZ x_min (x_max + 1 - x_min)) (length_seqZ x_min (x_max + 1 - x_min)).
  intros l <-. induction l as [|x l IH]; [reflexivity|].
  rewrite bind_cons, length_app, IH. cbn [length].
  unfold column_tiles at 1. unfold py_range. rewrite length_fmap, length_seqZ. lia.
Qed.

(** X6: one level adds at most the area of its clamped rectangle to the task
    list, and exactly that many tasks when none of its destinations exists. *)
Theorem plan_level_task_count E bounds z tasks w tasks' w'
    x_min x_max y_start y_end :
  plan_level E bounds z tasks w = (Ok tasks', w') ->
  tile_range bounds z = Ok (x_min, x_max, y_start, y_end) ->
  exists added, tasks' = tasks ++ added /\
    (length added
     <= Z.to_nat (x_max + 1 - x_min) * Z.to_nat (y_end + 1 - y_start))%nat /\
    ((forall x y, exists_b (tile_path z x y) w = false) ->
     length added
     = (Z.to_nat (x_max + 1 - x_min) * Z.to_nat (y_end + 1 - y_start))%nat).
Proof.
  intros Hp%plan_level_returns Hr. eexists. split; [exact Hp|].
  unfold candidate_tiles. rewrite Hr.
  rewrite <- (length_level_tiles z x_min x_max y_start y_end). split.
  - apply filter_length_le.
  - intros Hw. unfold pending. rewrite filter_all; [reflexivity|].
    intros t (x & y & -> & _)%elem_of_level_tiles. apply Hw.
Qed.

Lemma plan_level_returns_ok E bounds z tasks w :
  (forall p, makedirs_ok E p = true) -> (z < 1024)%nat ->
  exists w', plan_level E bounds z tasks w =
    (Ok (tasks ++ pending w (candidate_tiles bounds z)), w').
Proof.
  intros Hok Hz.
  destruct (outcome_plan_level E bounds z tasks w)
    as (w1 & _ & [Hr | [[_ [p Hp]] | [_ Hov]]]).
  - eauto.
  - rewrite Hok in Hp. discriminate.
  - lia.
Qed.

Lemma plan_level_task_count_witness :
  exists tasks' w' added,
    plan_level quiet_env BOUNDS 1 [] empty_world = (Ok tasks', w') /\
    tasks' = [] ++ added /\ length added = 4%nat.
Proof.
  destruct (plan_level_returns_ok quiet_env BOUNDS 1 [] empty_world) as [w' Hp].
  - intros p. reflexivity.
  - lia.
  - destruct (plan_level_task_count quiet_env BOUNDS 1 [] empty_world _ w' 0 1 0 1
                Hp tile_range_BOUNDS_1) as (added & Heq & _ & Hlen).
    eexists _, w', added. split; [exact Hp|]. split; [exact Heq|].
    apply Hlen. intros x y. apply exists_b_empty_world.
Defined.

Lemma amp_not_a_digit : not_a_digit "&"%char.
Proof.
  intros k Hk. unfold pretty_N_char.
  destruct k as [|p]; [discriminate|].
  do 4 (destruct p as [p|p|]; try discriminate).
Qed.

Lemma URL_TEMPLATE_inj x y z x' y' z' :
  URL_TEMPLATE x y z = URL_TEMPLATE x' y' z' -> x = x' /\ y = y' /\ z = z'.
Proof.
  unfold URL_TEMPLATE. intros H.
  apply String.app_inj in H.
  change ("&y=" +:+ str y +:+ "&z=" +:+ str z)
    with (String "&" ("y=" +:+ str y +:+ "&z=" +:+ str z)) in H.
  change ("&y=" +:+ str y' +:+ "&z=" +:+ str z')
    with (String "&" ("y=" +:+ str y' +:+ "&z=" +:+ str z')) in H.
  apply app_split_unique in H as [Hx H];
    [| apply str_mem_str; [exact amp_not_a_digit | discriminate] ..].
  apply String.app_inj in H.
  change ("&z=" +:+ str z) with (String "&" ("z=" +:+ str z)) in H.
  change ("&z=" +:+ str z') with (String "&" ("z=" +:+ str z')) in H.
  apply app_split_unique in H as [Hy H];
    [| apply str_mem_str; [exact amp_not_a_digit | discriminate] ..].
  apply String.app_inj in H.
  apply (inj pretty) in Hx. apply (inj pretty) in Hy. apply (inj pretty) in H.
  auto.
Qed.

Lemma candidate_url_inj bounds zs t t' :
  t ∈ zs ≫= candidate_tiles bounds -> t' ∈ zs ≫= candidate_tiles bounds ->
  task_url t = task_url t' -> t = t'.
Proof.
  intros (z & Ht & _)%list_elem_of_bind (z' & Ht' & _)%list_elem_of_bind.
  apply elem_of_candidate_tiles in Ht as (? & ? & ? & ? & x & y & _ & -> & _).
  apply elem_of_candidate_tiles in Ht' as (? & ? & ? & ? & x' & y' & _ & -> & _).
  cbn. intros (-> & -> & Hz)%URL_TEMPLATE_inj.
  assert (z = z') by lia. subst z'. reflexivity.
Qed.

(** X7: the URLs of the tasks of one planning pass over a range of zoom levels
    are pairwise different: a run asks the server for no tile twice. *)
Theorem plan_no_duplicate_urls E bounds (lo len : nat) w tasks w' :
  plan E bounds (seq lo len) w = (Ok tasks, w') -> NoDup (task_url <$> tasks).
Proof.
  intros [-> _]%plan_returns. apply NoDup_fmap_2_strong.
  - intros t t' [_ Ht]%list_elem_of_filter [_ Ht']%list_elem_of_filter.
    apply (candidate_url_inj bounds (seq lo len)); assumption.
  - apply NoDup_filter, NoDup_all_candidates, NoDup_seq.
Qed.

Lemma plan_no_duplicate_urls_witness :
  exists tasks w',
    plan quiet_env BOUNDS (seq 0 2) empty_world = (Ok tasks, w') /\
    NoDup (task_url <$> tasks).
Proof.
  destruct (plan_quiet BOUNDS 0 2 empty_world) as [w' Hp].
  - lia.
  - eexists _, w'. split; [exact Hp|].
    exact (plan_no_duplicate_urls quiet_env BOUNDS 0 2 empty_world _ w' Hp).
Defined.

End PlannerCoverage.

(** ** More on the executor: what a run leaves on disk *)

Section ExecutorDisk.
Context (E : env).
Local Open Scope Z_scope.

Lemma task_effect_dirs w t : dirs (task_effect E w t) = dirs w.
Proof.
  unfold task_effect. destruct (session_get E (task_url t)) as [s c|]; [|reflexivity].
  destruct ((s =? 200) && open_ok E (task_path t))%bool; reflexivity.
Qed.

Lemma run_dirs order : forall w, dirs (foldl (task_effect E) w order) = dirs w.
Proof.
  induction order as [|t order IH]; intros w; [reflexivity|].
  cbn [foldl]. rewrite IH. apply task_effect_dirs.
Qed.

Lemma task_effect_lookup_other w t p :
  (task_result E t = 1 -> task_path t <> p) ->
  files (task_effect E w t) !! p = files w !! p.
Proof.
  unfold task_result, task_effect.
  destruct (session_get E (task_url t)) as [s c|]; [|reflexivity].
  destruct (s =? 200); [|reflexivity].
  destruct (open_ok E (task_path t)); [|reflexivity].
  intros H. cbn. apply lookup_insert_ne. apply H. reflexivity.
Qed.

Lemma run_lookup_other order p : forall w,
  (forall t, t ∈ order -> task_result E t = 1 -> task_path t <> p) ->
  files (foldl (task_effect E) w order) !! p = files w !! p.
Proof.
  induction order as [|t order IH]; intros w H; [reflexivity|].
  cbn [foldl]. rewrite IH.
  - apply task_effect_lookup_other, H, list_elem_of_here.
  - intros t' Ht'. apply H, list_elem_of_further, Ht'.
Qed.

Lemma task_effect_lookup_success w t :
  task_result E t = 1 -> is_Some (files (task_effect E w t) !! task_path t).
Proof.
  unfold task_result, task_effect.
  destruct (session_get E (task_url t)) as [s c|]; [|discriminate].
  destruct (s =? 200).
  - destruct (open_ok E (task_path t)); [|discriminate].
    intros _. cbn. rewrite lookup_insert_eq. eauto.
  - destruct ((s =? 404) || (s =? 400))%bool; discriminate.
Qed.

Lemma task_effect_keeps w t p :
  is_Some (files w !! p) -> is_Some (files (task_effect E w t) !! p).
Proof.
  intros Hp. unfold task_effect.
  destruct (session_get E (task_url t)) as [s c|]; [|exact Hp].
  destruct ((s =? 200) && open_ok E (task_path t))%bool; [|exact Hp].
  cbn. destruct (decide (task_path t = p)) as [->|Hne].
  - rewrite lookup_insert_eq. eauto.
  - rewrite lookup_insert_ne by exact Hne. exact Hp.
Qed.

Lemma run_keeps order p : forall w,
  is_Some (files w !! p) -> is_Some (files (foldl (task_effect E) w order) !! p).
Proof.
  induction order as [|t order IH]; intros w Hp; [exact Hp|].
  cbn [foldl]. apply IH, task_effect_keeps, Hp.
Qed.

(** Which paths are files after a run: the ones that were, and the
    destinations of the tasks that returned 1. *)
Lemma run_is_file order p : forall w,
  is_Some (files (foldl (task_effect E) w order) !! p) <->
  is_Some (files w !! p) \/
  exists t, t ∈ order /\ task_result E t = 1 /\ task_path t = p.
Proof.
  induction order as [|t order IH]; intros w; cbn [foldl].
  - split; [auto|]. intros [H | (t & Ht & _)]; [exact H|].
    apply elem_of_nil in Ht. contradiction.
  - rewrite IH. split.
    + intros [H | (t' & Ht' & Hr & Hp)].
      * destruct (decide (task_result E t = 1 /\ task_path t = p)) as [[Hr Hp]|Hn].
        -- right. exists t. split; [apply list_elem_of_here | auto].
        -- left. rewrite task_effect_lookup_other in H; [exact H|].
           intros Hr Hp. apply Hn. auto.
      * right. exists t'. split; [apply list_elem_of_further, Ht' | auto].
    + intros [H | (t' & Ht' & Hr & Hp)].
      * left. apply task_effect_keeps, H.
      * apply elem_of_cons in Ht' as [-> | Ht'].
        -- left. rewrite <- Hp. apply task_effect_lookup_success, Hr.
        -- right. exists t'. auto.
Qed.

Lemma exists_b_false p w :
  exists_b p w = false <-> ~ is_Some (files w !! p) /\ p ∉ dirs w.
Proof.
  unfold exists_b. rewrite orb_false_iff, !bool_decide_eq_false, elem_of_dom.
  reflexivity.
Qed.

Lemma run_files_ext order : forall w w',
  files w = files w' ->
  files (foldl (task_effect E) w order) = files (foldl (task_effect E) w' order).
Proof.
  induction order as [|t order IH]; intros w w' Hf; [exact Hf|].
  cbn [foldl]. apply IH. unfold task_effect.
  destruct (session_get E (task_url t)) as [s c|]; [|exact Hf].
  destruct ((s =? 200) && open_ok E (task_path t))%bool; [|exact Hf].
  cbn. rewrite Hf. reflexivity.
Qed.

Lemma task_effect_swap w a b :
  task_path a <> task_path b ->
  files (task_effect E (task_effect E w a) b) =
  files (task_effect E (task_effect E w b) a).
Proof.
  intros Hne. unfold task_effect.
  destruct (session_get E (task_url a)) as [sa ca|];
    destruct (session_get E (task_url b)) as [sb cb|]; try reflexivity.
  - destruct ((sa =? 200) && open_ok E (task_path a))%bool;
      destruct ((sb =? 200) && open_ok E (task_path b))%bool; try reflexivity.
    cbn. rewrite insert_insert, decide_False by congruence. reflexivity.
  - destruct ((sa =? 200) && open_ok E (task_path a))%bool; reflexivity.
  - destruct ((sb =? 200) && open_ok E (task_path b))%bool; reflexivity.
Qed.

Lemma run_files_permutation order order' :
  order ≡ₚ order' -> NoDup (task_path <$> order) ->
  forall w, files (foldl (task_effect E) w order) =
            files (foldl (task_effect E) w order').
Proof.
  induction 1 as [|t l l' Hperm IH|a b l|l1 l2 l3 H12 IH12 H23 IH23]; intros Hnd w.
  - reflexivity.
  - cbn [foldl]. apply IH. cbn in Hnd. apply NoDup_cons in Hnd as [_ Hnd]. exact Hnd.
  - cbn [foldl]. apply run_files_ext, task_effect_swap.
    cbn in Hnd. apply NoDup_cons in Hnd as [Hin _].
    intros Heq. apply Hin. rewrite Heq. apply list_elem_of_here.
  - rewrite IH12 by exact Hnd. apply IH23.
    rewrite <- H12. exact Hnd.
Qed.

End ExecutorDisk.

Section ExecutorDiskTheorems.
Local Open Scope Z_scope.

Lemma task_result_1 E t :
  task_result E t = 1 -> exists c, session_get E (task_url t) = Response 200 c.
Proof.
  unfold task_result. destruct (session_get E (task_url t)) as [s c|]; [|discriminate].
  destruct (Z.eqb_spec s 200) as [->|_].
  - eauto.
  - destruct ((s =? 404) || (s =? 400))%bool; discriminate.
Qed.

(** X8: a run of the executor creates no directory, removes no file, and leaves
    alone every path that is not the destination of a task whose request the
    server answered with status 200. *)
Theorem execute_touches_only_answered E order w p :
  dirs (execute E order w).2 = dirs w /\
  (is_Some (files w !! p) -> is_Some (files (execute E order w).2 !! p)) /\
  ((forall t c, t ∈ order -> session_get E (task_url t) = Response 200 c ->
      task_path t <> p) ->
   files (execute E order w).2 !! p = files w !! p).
Proof.
  rewrite execute_eq. cbn [snd]. split; [apply run_dirs|]. split.
  - apply run_keeps.
  - intros H. apply run_lookup_other. intros t Ht Hr.
    destruct (task_result_1 E t Hr) as [c Hc]. exact (H t c Ht Hc).
Qed.

Lemma execute_touches_only_answered_witness :
  let t0 := (0, 0, 0%nat, "E:/Map/GoogleSat/0/0/0.jpg") in
  let t1 := (0, 0, 1%nat, "E:/Map/GoogleSat/1/0/1.jpg") in
  let w := store "E:/Map/GoogleSat/1/0/1.jpg" [Byte.x79] empty_world in
  files (execute level_0_env [t0; t1] w).2 !! "E:/Map/GoogleSat/1/0/1.jpg"
    = Some [Byte.x79].
Proof.
  intros t0 t1 w.
  etransitivity.
  - apply (proj2 (proj2 (execute_touches_only_answered level_0_env [t0; t1] w
                           "E:/Map/GoogleSat/1/0/1.jpg"))).
    intros t c [-> | Ht]%elem_of_cons Hs.
    + discriminate.
    + apply list_elem_of_singleton in Ht. subst t. discriminate Hs.
  - apply lookup_insert_eq.
Defined.

(** X9: when the destinations are pairwise different (as the planner guarantees),
    the order in which the pool completes the tasks does not matter: the
    counts, the files and the directories at the end are the same, and the same
    requests have been sent. *)
Theorem execute_order_irrelevant E order order' w :
  order ≡ₚ order' -> NoDup (task_path <$> order) ->
  exists summary w1 w2,
    execute E order w = (Ok summary, w1) /\
    execute E order' w = (Ok summary, w2) /\
    files w1 = files w2 /\ dirs w1 = dirs w2 /\ requests w1 ≡ₚ requests w2.
Proof.
  intros Hperm Hnd.
  assert (Hl : length order' = length order) by (rewrite Hperm; reflexivity).
  assert (Hf : length (filter (fun t => task_result E t = 1) order')
               = length (filter (fun t => task_result E t = 1) order))
    by (rewrite Hperm; reflexivity).
  eexists _, (foldl (task_effect E) w order), (foldl (task_effect E) w order').
  split; [apply execute_eq|].
  split; [rewrite execute_eq, Hl, Hf; reflexivity|].
  split; [apply run_files_permutation; assumption|].
  split; [rewrite !run_dirs; reflexivity|].
  rewrite !run_requests, Hperm. reflexivity.
Qed.

Lemma execute_order_irrelevant_witness :
  let a := (0, 0, 1%nat, "E:/Map/GoogleSat/1/0/1.jpg") in
  let b := (0, 1, 1%nat, "E:/Map/GoogleSat/1/0/0.jpg") in
  exists summary w1 w2,
    execute (serving_env [Byte.x78]) [a; b] empty_world = (Ok summary, w1) /\
    execute (serving_env [Byte.x78]) [b; a] empty_world = (Ok summary, w2) /\
    files w1 = files w2 /\ dirs w1 = dirs w2 /\ requests w1 ≡ₚ requests w2.
Proof.
  intros a b. apply execute_order_irrelevant.
  - apply Permutation_swap.
  - cbn. apply NoDup_cons. split.
    + intros [H | H]%elem_of_cons; [discriminate H | apply elem_of_nil in H; exact H].
    + apply NoDup_singleton.
Defined.

Lemma filter_iff_in {A} (P Q : A -> Prop) `{forall x, Decision (P x)}
    `{forall x, Decision (Q x)} (l : list A) :
  (forall x, x ∈ l -> (P x <-> Q x)) -> filter P l = filter Q l.
Proof.
  induction l as [|a l IH]; intros Hl; [reflexivity|].
  rewrite !filter_cons.
  assert (Ha : P a <-> Q a) by (apply Hl, list_elem_of_here).
  assert (IH' : filter P l = filter Q l)
    by (apply IH; intros x Hx; apply Hl, list_elem_of_further, Hx).
  destruct (decide (P a)) as [Hp|Hp]; destruct (decide (Q a)) as [Hq|Hq];
    try tauto; rewrite IH'; reflexivity.
Qed.

(** X10: resuming: when the destination of every task opens and is written
    completely, a second planning pass, after the first pass and the run of
    its tasks (in any order), plans again exactly the tasks of the first pass
    that did not return 1, in the same order. *)
Theorem second_pass_retries_failures E bounds zooms w tasks w1 order summary w2
    tasks2 w3 :
  plan E bounds zooms w = (Ok tasks, w1) ->
  order ≡ₚ tasks ->
  (forall t, t ∈ tasks -> open_ok E (task_path t) = true) ->
  execute E order w1 = (summary, w2) ->
  plan E bounds zooms w2 = (Ok tasks2, w3) ->
  tasks2 = filter (fun t => task_result E t <> 1) tasks /\
  forall t, t ∈ tasks ->
    (t ∈ tasks2 <-> forall c, session_get E (task_url t) <> Response 200 c).
Proof.
  intros [-> Hs]%plan_returns Hperm Hopen Hex [-> _]%plan_returns.
  rewrite execute_eq in Hex. injection Hex as _ <-.
  assert (Heq : pending (foldl (task_effect E) w1 order)
                  (zooms ≫= candidate_tiles bounds)
                = filter (fun t => task_result E t <> 1)
                    (pending w (zooms ≫= candidate_tiles bounds))).
  { unfold pending. rewrite list_filter_filter.
    apply filter_iff_in. intros t Ht.
    assert (Hdot : str_mem "." (task_path t) = true).
    { apply list_elem_of_bind in Ht as (z & Ht & _).
      apply elem_of_candidate_tiles in Ht as (? & ? & ? & ? & x & y & _ & -> & _).
      apply tile_path_dotted. }
    cbv beta. rewrite <- (exists_b_same_files _ _ _ Hs Hdot).
    rewrite !exists_b_false, run_dirs, run_is_file.
    split.
    - intros [Hnf Hnd]. split.
      + intros Hr. apply Hnf. right. exists t. split; [|auto].
        rewrite Hperm. apply list_elem_of_filter. split; [|exact Ht].
        rewrite <- (exists_b_same_files _ _ _ Hs Hdot).
        apply exists_b_false. split; [tauto | exact Hnd].
      + split; [tauto | exact Hnd].
    - intros [Hr [Hnf Hnd]]. split; [|exact Hnd].
      intros [Hf | (t' & Ht' & Hr' & Hp)]; [tauto|].
      rewrite Hperm in Ht'. apply list_elem_of_filter in Ht' as [_ Ht'].
      assert (t' = t) by (apply (candidate_path_inj bounds zooms); assumption).
      subst t'. contradiction. }
  split; [exact Heq|].
  intros t Ht. rewrite Heq, list_elem_of_filter. split.
  - intros [Hr _] c Hc. apply Hr. apply (task_result_200 E t c Hc), Hopen, Ht.
  - intros Hno. split; [|exact Ht].
    intros Hr. destruct (task_result_1 E t Hr) as [c Hc]. exact (Hno c Hc).
Qed.

Lemma second_pass_retries_failures_witness :
  exists tasks w1 summary w2 tasks2 w3,
    plan level_0_env BOUNDS (seq 0 2) empty_world = (Ok tasks, w1) /\
    execute level_0_env tasks w1 = (summary, w2) /\
    plan level_0_env BOUNDS (seq 0 2) w2 = (Ok tasks2, w3) /\
    tasks2 = filter (fun t => task_result level_0_env t <> 1) tasks /\
    tasks = (candidate_tiles BOUNDS 0 ++ candidate_tiles BOUNDS 1) /\
    tasks2 = candidate_tiles BOUNDS 1.
Proof.
  destruct (plan_total level_0_env BOUNDS (seq 0 2) empty_world) as [w1 Hp];
    [intros p; reflexivity | apply (small_levels 0 2); lia |].
  destruct (execute level_0_env (pending empty_world (seq 0 2 ≫= candidate_tiles BOUNDS)) w1)
    as [summary w2] eqn:Hex.
  destruct (plan_total level_0_env BOUNDS (seq 0 2) w2) as [w3 Hp2];
    [intros p; reflexivity | apply (small_levels 0 2); lia |].
  assert (Htasks : pending empty_world (seq 0 2 ≫= candidate_tiles BOUNDS)
                   = candidate_tiles BOUNDS 0 ++ candidate_tiles BOUNDS 1).
  { cbn [seq mbind list_bind]. rewrite app_nil_r. apply pending_all.
    - intros z x y. apply exists_b_empty_world.
    - apply Forall_app. split; apply Forall_forall; intros t Ht;
        apply (candidate_in_grid _ _ _ Ht). }
  pose proof (proj1 (second_pass_retries_failures level_0_env BOUNDS (seq 0 2)
                empty_world _ w1 _ summary w2 _ w3 Hp (Permutation_refl _)
                (fun t _ => eq_refl) Hex Hp2)) as Hsecond.
  eexists _, w1, summary, w2, _, w3.
  split; [exact Hp|]. split; [exact Hex|]. split; [exact Hp2|].
  split; [exact Hsecond|]. split; [exact Htasks|].
  rewrite Hsecond, Htasks, candidate_tiles_BOUNDS_0, candidate_tiles_BOUNDS_1.
  reflexivity.
Defined.

End ExecutorDiskTheorems.

(** ** More on the descriptor and on the whole run *)

Section DescriptorAndRun.

Lemma str_app_nil_r (s : string) : s +:+ "" = s.
Proof.
  induction s as [|c s IH]; [reflexivity|].
  exact (f_equal (String c) IH).
Qed.

Lemma tile_set_lines_ok zs : forall xml_content,
  Forall (fun z => (z < 1024)%nat) zs ->
  tile_set_lines zs xml_content = Ok (xml_content +:+ tile_set_block zs).
Proof.
  induction zs as [|z zs IH]; intros xml_content Hzs.
  - cbn [tile_set_lines tile_set_block foldr]. rewrite str_app_nil_r. reflexivity.
  - apply Forall_cons in Hzs as [Hz Hzs]. cbn [tile_set_lines].
    unfold units_per_pixel at 1.
    destruct (Z.ltb_spec (Z.of_nat z) 1024) as [_|Hge]; [|lia].
    cbn [mbind result_bind]. rewrite IH by exact Hzs.
    cbn [tile_set_block foldr]. rewrite str_app_assoc. reflexivity.
Qed.

Lemma tile_set_lines_overflow zs : forall xml_content,
  Exists (fun z => (1024 <= z)%nat) zs ->
  tile_set_lines zs xml_content = Raise OverflowError.
Proof.
  induction zs as [|z zs IH]; intros xml_content Hzs.
  - apply Exists_nil in Hzs. contradiction.
  - cbn [tile_set_lines]. unfold units_per_pixel at 1.
    destruct (Z.ltb_spec (Z.of_nat z) 1024) as [Hlt|Hge]; [|reflexivity].
    cbn [mbind result_bind]. apply IH.
    apply Exists_cons in Hzs as [Hz | Hzs]; [lia | exact Hzs].
Qed.

Lemma xml_document_ok (min_zoom max_zoom : nat) ext :
  (max_zoom < 1024 \/ max_zoom < min_zoom)%nat ->
  xml_document min_zoom max_zoom ext =
  Ok (xml_header ext +:+ tile_set_block (seq min_zoom (max_zoom + 1 - min_zoom))
      +:+ xml_footer).
Proof.
  intros Hr. unfold xml_document. rewrite tile_set_lines_ok.
  - cbn [mbind result_bind]. rewrite str_app_assoc. reflexivity.
  - apply Forall_forall. intros z Hz%elem_of_seq. lia.
Qed.

(** X11: the descriptor for any range of levels: one [<TileSet>] line per level
    from [min_zoom] to [max_zoom] in order, between the fixed header and
    footer, written to [os.path.join(path, "tilemapresource.xml")]; none for
    an empty range.  A
    level of 1024 or more raises [OverflowError] and a destination that does
    not open raises [OSError]; in both cases nothing is written. *)
Theorem generate_mercator_xml_cases E path (min_zoom max_zoom : nat) ext w :
  let dest := path_join path "tilemapresource.xml" in
  let text := xml_header ext
              +:+ tile_set_block (seq min_zoom (max_zoom + 1 - min_zoom))
              +:+ xml_footer in
  ((max_zoom < 1024 \/ max_zoom < min_zoom)%nat -> open_ok E dest = true ->
   generate_mercator_xml E path min_zoom max_zoom ext w =
     (Ok tt, store dest (String.list_byte_of_string text) w)) /\
  ((max_zoom < 1024 \/ max_zoom < min_zoom)%nat -> open_ok E dest = false ->
   generate_mercator_xml E path min_zoom max_zoom ext w = (Raise OSError, w)) /\
  ((min_zoom <= max_zoom)%nat -> (1024 <= max_zoom)%nat ->
   generate_mercator_xml E path min_zoom max_zoom ext w = (Raise OverflowError, w)) /\
  length (seq min_zoom (max_zoom + 1 - min_zoom)) = (max_zoom + 1 - min_zoom)%nat.
Proof.
  intros dest text.
  pose proof (xml_document_ok min_zoom max_zoom ext) as Hok. fold text in Hok.
  repeat split.
  - intros Hr Hopen. apply generate_mercator_xml_writes; auto.
  - intros Hr Hopen. unfold generate_mercator_xml.
    rewrite M_bind_eq. unfold lift. rewrite (Hok Hr). unfold write_file.
    fold dest. rewrite Hopen. reflexivity.
  - intros Hle Hge. unfold generate_mercator_xml, xml_document.
    rewrite M_bind_eq. unfold lift. rewrite tile_set_lines_overflow; [reflexivity|].
    apply Exists_exists. exists max_zoom. split; [|exact Hge].
    apply elem_of_seq. lia.
  - apply length_seq.
Qed.

Lemma generate_mercator_xml_cases_witness :
  generate_mercator_xml quiet_env SAVE_PATH 3 2 "jpg" empty_world =
    (Ok tt, store "E:/Map/GoogleSat/tilemapresource.xml"
              (String.list_byte_of_string (xml_header "jpg" +:+ xml_footer))
              empty_world) /\
  generate_mercator_xml quiet_env "" 3 2 "jpg" empty_world =
    (Ok tt, store "tilemapresource.xml"
              (String.list_byte_of_string (xml_header "jpg" +:+ xml_footer))
              empty_world) /\
  generate_mercator_xml quiet_env SAVE_PATH 1020 1030 "jpg" empty_world =
    (Raise OverflowError, empty_world).
Proof.
  split; [|split].
  - apply (proj1 (generate_mercator_xml_cases quiet_env SAVE_PATH 3 2 "jpg" empty_world)).
    + right. lia.
    + reflexivity.
  - apply (proj1 (generate_mercator_xml_cases quiet_env "" 3 2 "jpg" empty_world)).
    + right. lia.
    + reflexivity.
  - apply (proj1 (proj2 (proj2
             (generate_mercator_xml_cases quiet_env SAVE_PATH 1020 1030 "jpg" empty_world)))).
    + lia.
    + lia.
Defined.

Lemma halves_at_all : forallb halves_at (seq 0 1023) = true.
Proof. vm_compute. reflexivity. Qed.

(** X12: the resolution halves exactly, without rounding, from each level to the
    next, for every level the float conversion accepts. *)
Theorem units_per_pixel_halves (z : nat) :
  (z < 1023)%nat ->
  exists u, units_per_pixel z = Ok u /\ units_per_pixel (S z) = Ok (u / 2)%float.
Proof.
  intros Hz. pose proof halves_at_all as H.
  rewrite forallb_forall in H. specialize (H z).
  assert (Hin : In z (seq 0 1023)) by (apply in_seq; lia).
  apply H in Hin. unfold halves_at in Hin.
  destruct (units_per_pixel z) as [u|]; [|discriminate].
  destruct (units_per_pixel (S z)) as [u'|]; [|discriminate].
  apply FloatAxioms.Leibniz.eqb_spec in Hin. subst u'. eauto.
Qed.

Lemma units_per_pixel_halves_witness :
  exists u, units_per_pixel 8 = Ok u /\ units_per_pixel 9 = Ok (u / 2)%float.
Proof. apply (units_per_pixel_halves 8). lia. Defined.

(** X13: a whole run without directory faults and with a descriptor that opens
    returns normally and leaves the descriptor of levels 0 to 8 on disk,
    whatever the server answers, whichever tile files fail to open and in
    whatever order the pool runs the tasks; no file that was on disk is
    removed. *)
Theorem main_writes_descriptor E sched w :
  (forall p, makedirs_ok E p = true) ->
  open_ok E (path_join SAVE_PATH "tilemapresource.xml") = true ->
  exists w',
    main E sched w = (Ok tt, w') /\
    files w' !! "E:/Map/GoogleSat/tilemapresource.xml" =
      Some (String.list_byte_of_string
              (xml_header "jpg" +:+ tile_set_block (seq 0 9) +:+ xml_footer)) /\
    forall p, is_Some (files w !! p) -> is_Some (files w' !! p).
Proof.
  intros Hmk Hopen. unfold main.
  destruct (outcome_ensure_dir E False SAVE_PATH w str_mem_dot_SAVE_PATH)
    as (wa & [(Hfa & _) _] & [Ha | [[_ [p Hp]] | [_ []]]]);
    [|rewrite Hmk in Hp; discriminate].
  rewrite M_bind_eq, Ha.
  destruct (plan_total E BOUNDS ZOOM_LEVELS wa Hmk (small_levels 0 9 ltac:(lia))) as [wb Hb].
  destruct (plan_returns E _ _ _ _ _ Hb) as [_ (Hfb & _)].
  rewrite M_bind_eq, Hb. cbv zeta.
  set (tasks := pending wa (ZOOM_LEVELS ≫= candidate_tiles BOUNDS)) in *.
  assert (Hc : exists wc,
    (if (0 <? length tasks)%nat
     then execute E (sched tasks) ≫= (fun _ => mret tt)
     else mret tt) wb = (Ok tt, wc) /\
    forall p, is_Some (files wb !! p) -> is_Some (files wc !! p)).
  { destruct (0 <? length tasks)%nat.
    - exists (foldl (task_effect E) wb (sched tasks)). split.
      + rewrite M_bind_eq, execute_eq. reflexivity.
      + intros p. apply run_keeps.
    - exists wb. split; [reflexivity | auto]. }
  destruct Hc as (wc & Hc & Hkeep).
  rewrite M_bind_eq, Hc.
  rewrite M_bind_eq. unfold lift at 1. cbn [py_min_list ZOOM_LEVELS seq foldl Nat.min].
  rewrite M_bind_eq. unfold lift at 1. cbn [py_max_list ZOOM_LEVELS seq foldl Nat.max].
  assert (Hr : (8 < 1024 \/ 8 < 0)%nat) by (left; lia).
  rewrite (generate_mercator_xml_writes E SAVE_PATH 0 8 "jpg" _ wc
             (xml_document_ok 0 8 "jpg" Hr) Hopen).
  eexists. split; [reflexivity|]. split.
  - cbn. apply lookup_insert_eq.
  - intros p Hp. cbn.
    destruct (decide (path_join SAVE_PATH "tilemapresource.xml" = p)) as [<-|Hne].
    + rewrite lookup_insert_eq. eauto.
    + rewrite lookup_insert_ne by exact Hne. apply Hkeep.
      rewrite Hfb, Hfa. exact Hp.
Qed.

Lemma main_writes_descriptor_witness :
  exists w',
    main quiet_env (fun tasks => tasks) empty_world = (Ok tt, w') /\
    files w' !! "E:/Map/GoogleSat/tilemapresource.xml" =
      Some (String.list_byte_of_string
              (xml_header "jpg" +:+ tile_set_block (seq 0 9) +:+ xml_footer)) /\
    forall p, is_Some (files empty_world !! p) -> is_Some (files w' !! p).
Proof.
  apply (main_writes_descriptor quiet_env (fun tasks => tasks) empty_world).
  - intros p. reflexivity.
  - reflexivity.
Defined.

End DescriptorAndRun.

(** ** Independence of the levels *)

Section Levels.

(** X16: a zoom level of 1024 or more stops the planning of that level on the
    [OverflowError] of [2.0 ** z], before its directory is looked up or
    created: the world is left as it was. *)
Theorem plan_level_overflow E bounds z tasks w :
  (1024 <= z)%nat -> plan_level E bounds z tasks w = (Raise OverflowError, w).
Proof.
  intros Hz. unfold plan_level. rewrite M_bind_eq. unfold lift.
  rewrite (tile_range_overflow bounds z Hz). reflexivity.
Qed.

Lemma plan_level_overflow_witness :
  plan_level quiet_env BOUNDS 1024 [] empty_world = (Raise OverflowError, empty_world).
Proof. apply plan_level_overflow. lia. Defined.

(** X15: the levels are planned independently: a pass over two lists of levels
    emits the tasks of the pass over the first list followed by those of the
    pass over the second, each taken from the same disk. *)
Theorem plan_levels_independent E bounds zooms1 zooms2 w tasks w' tasks1 w1 tasks2 w2 :
  plan E bounds (zooms1 ++ zooms2) w = (Ok tasks, w') ->
  plan E bounds zooms1 w = (Ok tasks1, w1) ->
  plan E bounds zooms2 w = (Ok tasks2, w2) ->
  tasks = tasks1 ++ tasks2.
Proof.
  intros [-> _]%plan_returns [-> _]%plan_returns [-> _]%plan_returns.
  rewrite bind_app. apply pending_app.
Qed.

Lemma plan_levels_independent_witness :
  exists tasks w' tasks1 w1 tasks2 w2,
    plan quiet_env BOUNDS (seq 0 1 ++ seq 1 1) empty_world = (Ok tasks, w') /\
    plan quiet_env BOUNDS (seq 0 1) empty_world = (Ok tasks1, w1) /\
    plan quiet_env BOUNDS (seq 1 1) empty_world = (Ok tasks2, w2) /\
    tasks = tasks1 ++ tasks2.
Proof.
  destruct (plan_total quiet_env BOUNDS (seq 0 1 ++ seq 1 1) empty_world) as [w' Hp];
    [intros p; reflexivity | cbn; repeat constructor; lia |].
  destruct (plan_quiet BOUNDS 0 1 empty_world) as [w1 Hp1];
    [lia|].
  destruct (plan_quiet BOUNDS 1 1 empty_world) as [w2 Hp2];
    [lia|].
  eexists _, w', _, w1, _, w2.
  split; [exact Hp|]. split; [exact Hp1|]. split; [exact Hp2|].
  exact (plan_levels_independent quiet_env BOUNDS (seq 0 1) (seq 1 1) empty_world
           _ w' _ w1 _ w2 Hp Hp1 Hp2).
Defined.

End Levels.
